(** * The cloud output device manager of the UM3 network printing plugin

    A shallow embedding of
    [plugins/UM3NetworkPrinting/src/Cloud/CloudOutputDeviceManager.py]:
    the reconciliation loop that keeps the table of cloud devices in step
    with the clusters reported by the cloud API, and binds the active
    machine to one of them.

    Python objects live in a store indexed by object identity; the manager's
    table and the lists returned by the diff hold references into it, as in
    the source.  Calls on collaborators (signals, timer, API client, devices,
    output device registry, metadata, messages) are recorded in a trace, in
    call order.  [Logger.log] calls have no effect on any of this and are
    left out. *)

From Stdlib Require Import String List Bool Arith ZArith Lia.
Import ListNotations.
Open Scope string_scope.
Open Scope list_scope.

(** ** Python dictionaries

    A [dict] iterates in insertion order; assigning to a key that is present
    keeps its position, assigning to a new key appends, [del] of a missing
    key raises [KeyError].  The scan of [_connectByNetworkKey] depends on the
    iteration order, so the table is an association list. *)

Module Dict.

Definition t (V : Type) : Type := list (string * V).

Definition keys {V} (d : t V) : list string := map fst d.

Definition values {V} (d : t V) : list V := map snd d.

Fixpoint get {V} (k : string) (d : t V) : option V :=
  match d with
  | [] => None
  | (k', v) :: rest => if String.eqb k' k then Some v else get k rest
  end.

(** [k in d] *)
Definition contains {V} (k : string) (d : t V) : bool :=
  existsb (String.eqb k) (keys d).

(** The dictionary without the key [k]. *)
Definition remove {V} (k : string) (d : t V) : t V :=
  filter (fun e => negb (String.eqb (fst e) k)) d.

(** [d[k] = v] *)
Definition set {V} (k : string) (v : V) (d : t V) : t V :=
  if contains k d
  then map (fun e => if String.eqb (fst e) k then (k, v) else e) d
  else d ++ [(k, v)].

(** [del d[k]]; [None] stands for [KeyError]. *)
Definition del {V} (k : string) (d : t V) : option (t V) :=
  if contains k d then Some (remove k d) else None.

End Dict.

(** ** Records of the cloud API *)

Module CloudClusterResponse.

Record t : Type := mk
  { cluster_id : string;
    host_name : string;
    is_online : bool }.

End CloudClusterResponse.

Module CloudErrorObject.

Record t : Type := mk { title : string }.

End CloudErrorObject.

(** ** Collaborators *)

Module CloudOutputDevice.

(** Modelled from the spec: [CloudOutputDevice.py] is not part of the
    sources at hand.  A device has a key (the cluster id it was constructed
    with), a host name and a connection state, [Disconnected] at
    construction; [connect] and [disconnect] move it to [Connected] and
    [Disconnected]; [close] releases resources and leaves these fields
    alone. *)
Record t : Type := mk
  { key : string;
    host_name : string;
    connected : bool }.

Definition new (cluster_id host : string) : t := mk cluster_id host false.

Definition isConnected (d : t) : bool := connected d.

Definition connect (d : t) : t := mk (key d) (host_name d) true.

Definition disconnect (d : t) : t := mk (key d) (host_name d) false.

Definition set_host_name (h : string) (d : t) : t := mk (key d) h (connected d).

End CloudOutputDevice.

Module GlobalStack.

(** Modelled from the spec: [GlobalStack.py] is not part of the sources at
    hand.  The active machine, as far as the manager uses it, is a store of
    metadata entries; [getMetaDataEntry] answers [None] for a missing
    entry, [setMetaDataEntry] writes one. *)
Record t : Type := mk { metadata : Dict.t string }.

Definition getMetaDataEntry (k : string) (s : t) : option string :=
  Dict.get k (metadata s).

Definition setMetaDataEntry (k v : string) (s : t) : t :=
  mk (Dict.set k v (metadata s)).

End GlobalStack.

Module QTimer.

(** The timer of the GUI toolkit: an interval, whether it fires once only,
    and whether it is armed. *)
Record t : Type := mk
  { interval : Z;        (* milliseconds *)
    singleShot : bool;
    active : bool }.

Definition isActive (q : t) : bool := active q.

Definition start (q : t) : t := mk (interval q) (singleShot q) true.

Definition stop (q : t) : t := mk (interval q) (singleShot q) false.

End QTimer.

Module Message.

(** A user-facing notification, with the arguments the manager passes. *)
Record t : Type := mk
  { text : string;
    title : string;
    lifetime : Z;
    dismissable : bool }.

End Message.

(** ** The world the manager runs in *)

(** Object identity of a device. *)
Definition ref : Type := nat.

Inductive Signal : Type :=
  | loginStateChanged
  | globalContainerStackChanged
  | timeout.

Inductive Slot : Type :=
  | on_onLoginStateChanged
  | on_connectToActiveMachine
  | on_getRemoteClusters.

(** Calls on collaborators, in the order they are made. *)
Inductive Event : Type :=
  | SignalConnect (s : Signal) (h : Slot)
  | SignalDisconnect (s : Signal) (h : Slot)
  | TimerStart
  | TimerStop
  | ApiGetClusters
  | DeviceCreate (r : ref) (cluster_id host : string)
  | DeviceConnect (r : ref)
  | DeviceDisconnect (r : ref)
  | DeviceClose (r : ref)
  | DeviceSetHostName (r : ref) (host : string)
  | AddOutputDevice (r : ref)
  | RemoveOutputDevice (key : string)
  | SetMetaDataEntry (k v : string)
  | MessageShow (m : Message.t).

Record World : Type := mkWorld
  { (* the devices allocated so far, by identity *)
    heap : ref -> CloudOutputDevice.t;
    next_ref : ref;
    (* the manager's own fields *)
    _remote_clusters : Dict.t ref;
    _update_timer : QTimer.t;
    _running : bool;
    (* the application's output device registry: the keys it holds *)
    output_devices : list string;
    (* [self._account.isLoggedIn] *)
    isLoggedIn : bool;
    (* [CuraApplication.getInstance().getGlobalContainerStack()] *)
    active_machine : option GlobalStack.t;
    trace : list Event }.

Inductive Exn : Type :=
  | KeyError (k : string).

Inductive Result : Type :=
  | Ok (w : World)
  | Raise (e : Exn).

Definition Proc : Type := World -> Result.

Definition and_then (p q : Proc) : Proc :=
  fun w => match p w with
           | Ok w' => q w'
           | Raise e => Raise e
           end.

Notation "p ;; q" := (and_then p q) (at level 61, right associativity).

Definition pure (f : World -> World) : Proc := fun w => Ok (f w).

(** [for x in l: body(x)] *)
Fixpoint for_each {A} (l : list A) (body : A -> Proc) : Proc :=
  match l with
  | [] => pure (fun w => w)
  | x :: rest => body x ;; for_each rest body
  end.

(** *** Field updates *)

Definition log (e : Event) (w : World) : World :=
  mkWorld (heap w) (next_ref w) (_remote_clusters w) (_update_timer w)
          (_running w) (output_devices w) (isLoggedIn w) (active_machine w)
          (trace w ++ [e]).

Definition set_device (r : ref) (d : CloudOutputDevice.t) (w : World) : World :=
  mkWorld (fun r' => if Nat.eqb r' r then d else heap w r')
          (next_ref w) (_remote_clusters w) (_update_timer w)
          (_running w) (output_devices w) (isLoggedIn w) (active_machine w)
          (trace w).

Definition set_next_ref (n : ref) (w : World) : World :=
  mkWorld (heap w) n (_remote_clusters w) (_update_timer w)
          (_running w) (output_devices w) (isLoggedIn w) (active_machine w)
          (trace w).

Definition set_remote_clusters (d : Dict.t ref) (w : World) : World :=
  mkWorld (heap w) (next_ref w) d (_update_timer w)
          (_running w) (output_devices w) (isLoggedIn w) (active_machine w)
          (trace w).

Definition set_update_timer (q : QTimer.t) (w : World) : World :=
  mkWorld (heap w) (next_ref w) (_remote_clusters w) q
          (_running w) (output_devices w) (isLoggedIn w) (active_machine w)
          (trace w).

Definition set_output_devices (l : list string) (w : World) : World :=
  mkWorld (heap w) (next_ref w) (_remote_clusters w) (_update_timer w)
          (_running w) l (isLoggedIn w) (active_machine w)
          (trace w).

Definition set_active_machine (m : option GlobalStack.t) (w : World) : World :=
  mkWorld (heap w) (next_ref w) (_remote_clusters w) (_update_timer w)
          (_running w) (output_devices w) (isLoggedIn w) m
          (trace w).

(** *** Calls on collaborators *)

Definition device_connect (r : ref) (w : World) : World :=
  log (DeviceConnect r) (set_device r (CloudOutputDevice.connect (heap w r)) w).

Definition device_disconnect (r : ref) (w : World) : World :=
  log (DeviceDisconnect r)
      (set_device r (CloudOutputDevice.disconnect (heap w r)) w).

Definition device_close (r : ref) (w : World) : World :=
  log (DeviceClose r) w.

Definition device_set_host_name (r : ref) (h : string) (w : World) : World :=
  log (DeviceSetHostName r h)
      (set_device r (CloudOutputDevice.set_host_name h (heap w r)) w).

(** [CloudOutputDevice(api, cluster_id, host_name)]: a fresh object. *)
Definition device_new (cluster_id host : string) (w : World) : World :=
  log (DeviceCreate (next_ref w) cluster_id host)
      (set_next_ref (S (next_ref w))
         (set_device (next_ref w) (CloudOutputDevice.new cluster_id host) w)).

(** Modelled from the spec: the output device registry of the host
    application ([addOutputDevice(device)], [removeOutputDevice(key)]) is
    not part of the sources at hand.  It holds devices by key; the manager
    is the only writer of devices with its keys, so the model keeps the set
    of those keys. *)
Definition addOutputDevice (r : ref) (w : World) : World :=
  let k := CloudOutputDevice.key (heap w r) in
  log (AddOutputDevice r)
      (set_output_devices
         (if existsb (String.eqb k) (output_devices w)
          then output_devices w
          else output_devices w ++ [k]) w).

Definition removeOutputDevice (k : string) (w : World) : World :=
  log (RemoveOutputDevice k)
      (set_output_devices
         (filter (fun k' => negb (String.eqb k' k)) (output_devices w)) w).

Definition setMetaDataEntry (k v : string) (w : World) : World :=
  log (SetMetaDataEntry k v)
      (set_active_machine
         (option_map (GlobalStack.setMetaDataEntry k v) (active_machine w)) w).

(** Modelled from the spec: [findChanges] of [Utils.py] is not part of the
    sources at hand.  [removed] are the devices whose key is absent from
    [current], [added] the records whose key is absent from [previous],
    [updated] the pairs whose key is in both and whose host names differ.
    The spec leaves the order of each list open; here each follows the
    iteration order of the dictionary it is taken from. *)
Definition findChanges (h : ref -> CloudOutputDevice.t)
    (previous : Dict.t ref) (current : Dict.t CloudClusterResponse.t)
    : list ref * list CloudClusterResponse.t
      * list (ref * CloudClusterResponse.t) :=
  let removed :=
    Dict.values
      (filter (fun e => negb (Dict.contains (fst e) current)) previous) in
  let added :=
    Dict.values
      (filter (fun e => negb (Dict.contains (fst e) previous)) current) in
  let updated :=
    flat_map
      (fun e =>
         match Dict.get (fst e) current with
         | Some c =>
             if String.eqb (CloudOutputDevice.host_name (h (snd e)))
                           (CloudClusterResponse.host_name c)
             then [] else [(snd e, c)]
         | None => []
         end) previous in
  (removed, added, updated).

(** ** The manager *)

Section Manager.

(** Modelled from the spec: [CloudOutputDevice.matchesNetworkKey], the rule
    that correlates a local network key with a device.  The manager uses
    its boolean result only. *)
Variable matchesNetworkKey : CloudOutputDevice.t -> string -> bool.

(** [I18N_CATALOG.i18nc(context, text)], the translation catalog. *)
Variable i18nc : string -> string -> string.

Definition META_CLUSTER_ID : string := "um_cloud_cluster_id".

(** seconds *)
Definition CHECK_CLUSTER_INTERVAL : Z := 50.

(** The arguments are what [__init__] reads from the application: the
    login status of the account and the active machine.  No device exists
    yet, and the registry holds none of this manager's keys. *)
Definition __init__ (logged_in : bool) (machine : option GlobalStack.t)
    : World :=
  mkWorld (fun _ => CloudOutputDevice.new "" "") 0
          []
          (QTimer.mk (CHECK_CLUSTER_INTERVAL * 1000) false false)
          false
          [] logged_in machine [].

(** [{c.cluster_id: c for c in clusters if c.is_online}] *)
Definition online_clusters (clusters : list CloudClusterResponse.t)
    : Dict.t CloudClusterResponse.t :=
  fold_left (fun d c => Dict.set (CloudClusterResponse.cluster_id c) c d)
            (filter CloudClusterResponse.is_online clusters) [].

(** Body of the loop over [removed_devices]. *)
Definition remove_output_device (r : ref) : Proc :=
  fun w =>
    let w1 := if CloudOutputDevice.isConnected (heap w r)
              then device_disconnect r w else w in
    let w2 := device_close r w1 in
    let w3 := removeOutputDevice (CloudOutputDevice.key (heap w2 r)) w2 in
    let k := CloudOutputDevice.key (heap w3 r) in
    match Dict.del k (_remote_clusters w3) with
    | Some d => Ok (set_remote_clusters d w3)
    | None => Raise (KeyError k)
    end.

(** Body of the loop over [added_clusters]. *)
Definition add_output_device (c : CloudClusterResponse.t) : Proc :=
  pure (fun w =>
    let r := next_ref w in
    let w1 := device_new (CloudClusterResponse.cluster_id c)
                         (CloudClusterResponse.host_name c) w in
    let w2 := addOutputDevice r w1 in
    set_remote_clusters
      (Dict.set (CloudClusterResponse.cluster_id c) r (_remote_clusters w2))
      w2).

(** Body of the loop over [updates]. *)
Definition update_output_device (u : ref * CloudClusterResponse.t) : Proc :=
  pure (device_set_host_name (fst u) (CloudClusterResponse.host_name (snd u))).

Definition _connectByNetworkKey (active : GlobalStack.t) : Proc :=
  fun w =>
    match GlobalStack.getMetaDataEntry "um_network_key" active with
    | None => Ok w
    | Some local_network_key =>
        if String.eqb local_network_key "" then Ok w
        else
          match find (fun r => matchesNetworkKey (heap w r) local_network_key)
                     (Dict.values (_remote_clusters w)) with
          | Some r =>
              Ok (device_connect r
                    (setMetaDataEntry META_CLUSTER_ID
                       (CloudOutputDevice.key (heap w r)) w))
          | None => Ok w
          end
    end.

Definition _connectToActiveMachine : Proc :=
  fun w =>
    match active_machine w with
    | None => Ok w
    | Some active =>
        match GlobalStack.getMetaDataEntry META_CLUSTER_ID active with
        | Some stored_cluster_id =>
            if Dict.contains stored_cluster_id (_remote_clusters w)
            then
              match Dict.get stored_cluster_id (_remote_clusters w) with
              | Some r =>
                  if CloudOutputDevice.isConnected (heap w r) then Ok w
                  else Ok (device_connect r w)
              | None => Raise (KeyError stored_cluster_id)
              end
            else _connectByNetworkKey active w
        | None => _connectByNetworkKey active w
        end
    end.

Definition _onGetRemoteClustersFinished
    (clusters : list CloudClusterResponse.t) : Proc :=
  fun w =>
    let online := online_clusters clusters in
    let '(removed_devices, added_clusters, updates) :=
      findChanges (heap w) (_remote_clusters w) online in
    (for_each removed_devices remove_output_device ;;
     for_each added_clusters add_output_device ;;
     for_each updates update_output_device ;;
     _connectToActiveMachine) w.

Definition _getRemoteClusters : Proc := pure (log ApiGetClusters).

Definition _onLoginStateChanged (is_logged_in : bool) : Proc :=
  if is_logged_in
  then
    pure (fun w =>
      if QTimer.isActive (_update_timer w) then w
      else log TimerStart
             (set_update_timer (QTimer.start (_update_timer w)) w)) ;;
    _getRemoteClusters
  else
    pure (fun w =>
      if QTimer.isActive (_update_timer w)
      then log TimerStop (set_update_timer (QTimer.stop (_update_timer w)) w)
      else w) ;;
    _onGetRemoteClustersFinished [].

Definition _onApiError (errors : list CloudErrorObject.t) : Proc :=
  pure (fun w =>
    let text := String.concat ". " (map CloudErrorObject.title errors) in
    let message := Message.mk text (i18nc "@info:title" "Error") 10 true in
    log (MessageShow message) w).

Definition start : Proc :=
  fun w =>
    if _running w then Ok w
    else
      (pure (log (SignalConnect loginStateChanged on_onLoginStateChanged)) ;;
       pure (log (SignalConnect globalContainerStackChanged
                                on_connectToActiveMachine)) ;;
       pure (log (SignalConnect timeout on_getRemoteClusters)) ;;
       fun w' => _onLoginStateChanged (isLoggedIn w') w') w.

Definition stop : Proc :=
  fun w =>
    if negb (_running w) then Ok w
    else
      (pure (log (SignalDisconnect loginStateChanged on_onLoginStateChanged)) ;;
       pure (log (SignalDisconnect globalContainerStackChanged
                                   on_connectToActiveMachine)) ;;
       pure (log (SignalDisconnect timeout on_getRemoteClusters)) ;;
       _onLoginStateChanged false) w.

(** The entry points of the manager: its two public methods, the slots it
    connects to signals and the callbacks it hands to the API client. *)
Inductive Call : Type :=
  | call_start
  | call_stop
  | call_onLoginStateChanged (is_logged_in : bool)
  | call_getRemoteClusters
  | call_onGetRemoteClustersFinished (clusters : list CloudClusterResponse.t)
  | call_connectToActiveMachine
  | call_onApiError (errors : list CloudErrorObject.t).

Definition run (c : Call) : Proc :=
  match c with
  | call_start => start
  | call_stop => stop
  | call_onLoginStateChanged b => _onLoginStateChanged b
  | call_getRemoteClusters => _getRemoteClusters
  | call_onGetRemoteClustersFinished clusters =>
      _onGetRemoteClustersFinished clusters
  | call_connectToActiveMachine => _connectToActiveMachine
  | call_onApiError errors => _onApiError errors
  end.

(** A sequence of calls, stopping at the first exception. *)
Fixpoint run_all (cs : list Call) : Proc :=
  match cs with
  | [] => pure (fun w => w)
  | c :: rest => run c ;; run_all rest
  end.

End Manager.

(** ** Well-formed worlds and what a reconciliation is expected to do *)

(** A dictionary has one entry per key. *)
Definition keys_unique (w : World) : Prop :=
  NoDup (Dict.keys (_remote_clusters w)).

(** The table refers to objects that have been constructed. *)
Definition refs_allocated (w : World) : Prop :=
  forall k r, In (k, r) (_remote_clusters w) -> r < next_ref w.

Definition well_formed (w : World) : Prop :=
  keys_unique w /\ refs_allocated w.

(** The registry holds a key exactly when the table does. *)
Definition registry_agrees (w : World) : Prop :=
  forall k, In k (Dict.keys (_remote_clusters w)) <-> In k (output_devices w).

(** Each table entry maps a cluster id to a device with that key. *)
Definition keys_agree (w : World) : Prop :=
  forall k r,
    In (k, r) (_remote_clusters w) -> CloudOutputDevice.key (heap w r) = k.

Definition synchronised (w : World) : Prop :=
  registry_agrees w /\ keys_agree w.

(** The fields a reconciliation of the table leaves alone. *)
Definition same_surroundings (w w' : World) : Prop :=
  _update_timer w' = _update_timer w /\
  _running w' = _running w /\
  isLoggedIn w' = isLoggedIn w.

(** What tearing down the device [r] calls, given the store [h] at the
    start of the loop. *)
Definition removal_events (h : ref -> CloudOutputDevice.t) (r : ref)
    : list Event :=
  (if CloudOutputDevice.isConnected (h r) then [DeviceDisconnect r] else [])
  ++ [DeviceClose r; RemoveOutputDevice (CloudOutputDevice.key (h r))].

(** What adding the clusters [l] calls, the first device being allocated
    at [n]. *)
Fixpoint addition_events (n : ref) (l : list CloudClusterResponse.t)
    : list Event :=
  match l with
  | [] => []
  | c :: rest =>
      DeviceCreate n (CloudClusterResponse.cluster_id c)
                     (CloudClusterResponse.host_name c)
      :: AddOutputDevice n :: addition_events (S n) rest
  end.

Definition update_events (l : list (ref * CloudClusterResponse.t))
    : list Event :=
  map (fun u => DeviceSetHostName (fst u)
                  (CloudClusterResponse.host_name (snd u))) l.

(** Calls made when a device is torn down. *)
Definition is_removal_event (e : Event) : bool :=
  match e with
  | DeviceDisconnect _ | DeviceClose _ | RemoveOutputDevice _ => true
  | _ => false
  end.

(** Events of the connection resolver. *)
Definition is_resolver_event (e : Event) : bool :=
  match e with
  | SetMetaDataEntry _ _ | DeviceConnect _ => true
  | _ => false
  end.

Definition event_eqb_close (r : ref) (e : Event) : bool :=
  match e with
  | DeviceClose r' => Nat.eqb r' r
  | _ => false
  end.

(** The table entries created for the clusters [l], the first device
    being allocated at [n]. *)
Definition added_entries (n : ref) (l : list CloudClusterResponse.t)
    : Dict.t ref :=
  combine (map CloudClusterResponse.cluster_id l) (seq n (length l)).

(** What the connection resolver may change: the connection state of
    devices and the metadata of the active machine, nothing else. *)
Definition resolver_frame (w w' : World) : Prop :=
  _remote_clusters w' = _remote_clusters w /\
  next_ref w' = next_ref w /\
  output_devices w' = output_devices w /\
  same_surroundings w w' /\
  (forall r, CloudOutputDevice.key (heap w' r)
             = CloudOutputDevice.key (heap w r)) /\
  (forall r, CloudOutputDevice.host_name (heap w' r)
             = CloudOutputDevice.host_name (heap w r)) /\
  exists evs, trace w' = trace w ++ evs
              /\ forallb is_resolver_event evs = true.

(** *** The running flag and a response

    [_onGetRemoteClustersFinished] is the callback of a poll; whether it
    consults the running flag is stated as: running it on a world with the
    flag overwritten gives the result of running it on the world, with the
    flag overwritten. *)

Definition set_running (b : bool) (w : World) : World :=
  mkWorld (heap w) (next_ref w) (_remote_clusters w) (_update_timer w)
          b (output_devices w) (isLoggedIn w) (active_machine w) (trace w).

Definition map_result (f : World -> World) (r : Result) : Result :=
  match r with
  | Ok w => Ok (f w)
  | Raise e => Raise e
  end.

(** [p] neither reads nor writes [_running]. *)
Definition ignores_flag (p : Proc) : Prop :=
  forall b w, p (set_running b w) = map_result (set_running b) (p w).

(** ** Sample data *)

(** A matching rule for the examples: the local network key starts with
    the host name of the device. *)
Definition host_name_prefix (d : CloudOutputDevice.t) (k : string) : bool :=
  String.prefix (CloudOutputDevice.host_name d) k.

Definition untranslated (context text : string) : string := text.

Definition cluster_A : CloudClusterResponse.t :=
  CloudClusterResponse.mk "A" "h1" true.

Definition cluster_B : CloudClusterResponse.t :=
  CloudClusterResponse.mk "B" "h3" true.

Definition cluster_B_offline : CloudClusterResponse.t :=
  CloudClusterResponse.mk "B" "h3" false.

Definition machine_h3 : GlobalStack.t :=
  GlobalStack.mk [("um_network_key", "h3.local")].

(** A manager that was started while logged in and has seen one
    successful poll reporting the clusters A and B. *)
Definition started_world : Result :=
  run_all host_name_prefix untranslated
    [call_start; call_onGetRemoteClustersFinished [cluster_A; cluster_B]]
    (__init__ true (Some machine_h3)).

Definition world_of (r : Result) (default : World) : World :=
  match r with
  | Ok w => w
  | Raise _ => default
  end.

Definition world_AB : World :=
  world_of started_world (__init__ true (Some machine_h3)).

(** The same manager, when the machine with network key ["h3.local"]
    becomes active only after the poll: it carries no stored cluster
    identity yet. *)
Definition world_AB_unbound : World :=
  set_active_machine (Some machine_h3)
    (world_of
       (run_all host_name_prefix untranslated
          [call_start; call_onGetRemoteClustersFinished [cluster_A; cluster_B]]
          (__init__ true None))
       (__init__ true None)).

(** [world_AB] with the running flag set by hand; no call of the manager
    produces such a world. *)
Definition world_AB_flagged : World := set_running true world_AB.

(** A manager started while logged in, then stopped while the poll that
    [start] requested is still outstanding. *)
Definition world_stopped : World :=
  world_of
    (run_all host_name_prefix untranslated [call_start; call_stop]
       (__init__ true None))
    (__init__ true None).

Definition cluster_A_renamed : CloudClusterResponse.t :=
  CloudClusterResponse.mk "A" "h2" true.

Definition cluster_C : CloudClusterResponse.t :=
  CloudClusterResponse.mk "C" "h5" true.

(** [world_stopped] once the response reporting cluster A has arrived. *)
Definition world_late : World :=
  world_of
    (_onGetRemoteClustersFinished host_name_prefix [cluster_A] world_stopped)
    world_stopped.

(** [world_AB_flagged] after [stop]. *)
Definition world_drained : World :=
  world_of (stop host_name_prefix world_AB_flagged) world_AB_flagged.

(** A manager started while logged out. *)
Definition world_logged_out : World :=
  world_of (start host_name_prefix (__init__ false None))
           (__init__ false None).

(** The active machine of [world_AB]: the resolver has bound it to B. *)
Definition machine_h3_bound : GlobalStack.t :=
  GlobalStack.mk
    [("um_network_key", "h3.local"); ("um_cloud_cluster_id", "B")].

(** Another cluster whose host name matches the network key of the
    machine. *)
Definition cluster_D : CloudClusterResponse.t :=
  CloudClusterResponse.mk "D" "h3" true.

(** ** Runs of the manager in its environment

    Besides the entry points of the manager, the account may log in or
    out and the user may switch the active machine. *)

Definition set_logged_in (b : bool) (w : World) : World :=
  mkWorld (heap w) (next_ref w) (_remote_clusters w) (_update_timer w)
          (_running w) (output_devices w) b (active_machine w) (trace w).

Inductive Action : Type :=
  | act_call (c : Call)
  | act_login (is_logged_in : bool)
  | act_machine (machine : option GlobalStack.t).

Definition run_action
    (matchesNetworkKey : CloudOutputDevice.t -> string -> bool)
    (i18nc : string -> string -> string) (a : Action) : Proc :=
  match a with
  | act_call c => run matchesNetworkKey i18nc c
  | act_login b => pure (set_logged_in b)
  | act_machine m => pure (set_active_machine m)
  end.

Fixpoint run_actions
    (matchesNetworkKey : CloudOutputDevice.t -> string -> bool)
    (i18nc : string -> string -> string) (l : list Action) : Proc :=
  match l with
  | [] => pure (fun w => w)
  | a :: rest =>
      run_action matchesNetworkKey i18nc a ;;
      run_actions matchesNetworkKey i18nc rest
  end.

(** What holds of every world the manager can be in. *)
Definition manager_invariant (w : World) : Prop :=
  well_formed w /\ synchronised w /\
  NoDup (Dict.values (_remote_clusters w)) /\
  _running w = false /\
  QTimer.interval (_update_timer w) = 50000%Z /\
  QTimer.singleShot (_update_timer w) = false.

Definition is_connect_event (e : Event) : bool :=
  match e with
  | DeviceConnect _ => true
  | _ => false
  end.

(** The last online record of the response with cluster id [k]. *)
Definition last_online (k : string) (cs : list CloudClusterResponse.t)
    : option CloudClusterResponse.t :=
  find (fun c => String.eqb (CloudClusterResponse.cluster_id c) k)
       (rev (filter CloudClusterResponse.is_online cs)).

(** * Properties *)

(** ** Dictionaries *)

Lemma existsb_eqb_In (k : string) (l : list string) :
  existsb (String.eqb k) l = true <-> In k l.
Proof.
  rewrite existsb_exists. split.
  - intros [x [Hx Heq]]. apply String.eqb_eq in Heq. now subst.
  - intros H. exists k. split; [assumption | apply String.eqb_refl].
Qed.

Lemma existsb_eqb_not_In (k : string) (l : list string) :
  existsb (String.eqb k) l = false <-> ~ In k l.
Proof.
  rewrite <- existsb_eqb_In. destruct (existsb (String.eqb k) l); split;
    congruence.
Qed.

Lemma existsb_nat_In (r : ref) (l : list ref) :
  existsb (Nat.eqb r) l = true <-> In r l.
Proof.
  rewrite existsb_exists. split.
  - intros [x [Hx Heq]]. apply Nat.eqb_eq in Heq. now subst.
  - intros H. exists r. split; [assumption | apply Nat.eqb_refl].
Qed.

Lemma contains_In {V} (k : string) (d : Dict.t V) :
  Dict.contains k d = true <-> In k (Dict.keys d).
Proof. apply existsb_eqb_In. Qed.

Lemma contains_not_In {V} (k : string) (d : Dict.t V) :
  Dict.contains k d = false <-> ~ In k (Dict.keys d).
Proof. apply existsb_eqb_not_In. Qed.

Lemma In_keys {V} (k : string) (v : V) (d : Dict.t V) :
  In (k, v) d -> In k (Dict.keys d).
Proof. intros H. apply (in_map fst) in H. exact H. Qed.

Lemma In_values {V} (k : string) (v : V) (d : Dict.t V) :
  In (k, v) d -> In v (Dict.values d).
Proof. intros H. apply (in_map snd) in H. exact H. Qed.

Lemma keys_In {V} (k : string) (d : Dict.t V) :
  In k (Dict.keys d) -> exists v, In (k, v) d.
Proof.
  unfold Dict.keys. rewrite in_map_iff. intros [[k' v] [Hk Hin]].
  simpl in Hk. subst. now exists v.
Qed.

Lemma values_In {V} (v : V) (d : Dict.t V) :
  In v (Dict.values d) -> exists k, In (k, v) d.
Proof.
  unfold Dict.values. rewrite in_map_iff. intros [[k v'] [Hv Hin]].
  simpl in Hv. subst. now exists k.
Qed.

Lemma get_In {V} (k : string) (v : V) (d : Dict.t V) :
  Dict.get k d = Some v -> In (k, v) d.
Proof.
  induction d as [|[k' v'] d IH]; simpl; [discriminate|].
  destruct (String.eqb k' k) eqn:E.
  - apply String.eqb_eq in E. intros [= ->]. left. now subst.
  - intros H. right. now apply IH.
Qed.

Lemma In_get {V} (k : string) (v : V) (d : Dict.t V) :
  NoDup (Dict.keys d) -> In (k, v) d -> Dict.get k d = Some v.
Proof.
  induction d as [|[k' v'] d IH]; simpl; [contradiction|].
  intros Hnd [Heq | Hin].
  - injection Heq as -> ->. now rewrite String.eqb_refl.
  - inversion Hnd as [|? ? Hnotin Hnd']; subst.
    destruct (String.eqb k' k) eqn:E.
    + apply String.eqb_eq in E. subst. exfalso. apply Hnotin.
      now apply In_keys with v.
    + now apply IH.
Qed.

Lemma get_None {V} (k : string) (d : Dict.t V) :
  Dict.get k d = None <-> ~ In k (Dict.keys d).
Proof.
  induction d as [|[k' v'] d IH]; simpl; [tauto|].
  destruct (String.eqb k' k) eqn:E.
  - apply String.eqb_eq in E. subst. split; [discriminate | tauto].
  - apply String.eqb_neq in E. rewrite IH. tauto.
Qed.

Lemma contains_get {V} (k : string) (d : Dict.t V) :
  Dict.contains k d = true -> exists v, Dict.get k d = Some v.
Proof.
  intros H. destruct (Dict.get k d) as [v|] eqn:E; [now exists v|].
  apply get_None in E. apply contains_In in H. contradiction.
Qed.

Lemma keys_remove {V} (k : string) (d : Dict.t V) :
  Dict.keys (Dict.remove k d)
  = filter (fun k' => negb (String.eqb k' k)) (Dict.keys d).
Proof.
  induction d as [|[k' v'] d IH]; simpl; [reflexivity|].
  destruct (String.eqb k' k); simpl; now rewrite <- IH.
Qed.

Lemma In_remove {V} (k k' : string) (v : V) (d : Dict.t V) :
  In (k', v) (Dict.remove k d) <-> In (k', v) d /\ k' <> k.
Proof.
  unfold Dict.remove. rewrite filter_In. simpl.
  rewrite negb_true_iff, String.eqb_neq. tauto.
Qed.

Lemma keys_set_new {V} (k : string) (v : V) (d : Dict.t V) :
  ~ In k (Dict.keys d) -> Dict.set k v d = d ++ [(k, v)].
Proof.
  intros H. apply contains_not_In in H. unfold Dict.set. now rewrite H.
Qed.

Lemma keys_set_old {V} (k : string) (v : V) (d : Dict.t V) :
  In k (Dict.keys d) -> Dict.keys (Dict.set k v d) = Dict.keys d.
Proof.
  intros H. apply contains_In in H. unfold Dict.set. rewrite H.
  unfold Dict.keys. rewrite map_map. apply map_ext_in.
  intros [k' v'] _. simpl. destruct (String.eqb k' k) eqn:E; simpl;
    [apply String.eqb_eq in E; now subst | reflexivity].
Qed.

Lemma In_keys_set {V} (k k' : string) (v : V) (d : Dict.t V) :
  In k' (Dict.keys (Dict.set k v d)) <-> k' = k \/ In k' (Dict.keys d).
Proof.
  destruct (Dict.contains k d) eqn:E.
  - apply contains_In in E. rewrite keys_set_old by assumption.
    split; [tauto | intros [-> | H]; assumption].
  - apply contains_not_In in E. rewrite keys_set_new by assumption.
    unfold Dict.keys. rewrite map_app, in_app_iff. simpl.
    split.
    + intros [H | [H | []]]; auto.
    + intros [-> | H]; auto.
Qed.

Lemma NoDup_keys_set {V} (k : string) (v : V) (d : Dict.t V) :
  NoDup (Dict.keys d) -> NoDup (Dict.keys (Dict.set k v d)).
Proof.
  intros Hnd. destruct (Dict.contains k d) eqn:E.
  - apply contains_In in E. now rewrite keys_set_old.
  - apply contains_not_In in E. rewrite keys_set_new by assumption.
    unfold Dict.keys. rewrite map_app. simpl.
    apply NoDup_app; [assumption | repeat constructor; auto | ].
    intros x Hx [<- | []]. contradiction.
Qed.

Lemma filter_twice {A} (f g : A -> bool) (l : list A) :
  filter f (filter g l) = filter (fun x => g x && f x) l.
Proof.
  induction l as [|x l IH]; simpl; [reflexivity|].
  destruct (g x); simpl; [destruct (f x)|]; now rewrite IH.
Qed.

Lemma flat_map_agree {A B} (f g : A -> list B) (l : list A) :
  (forall x, In x l -> f x = g x) -> flat_map f l = flat_map g l.
Proof.
  induction l as [|x l IH]; simpl; intros H; [reflexivity|].
  rewrite H by now left. f_equal. apply IH. intros y Hy. apply H. now right.
Qed.

Lemma filter_all {A} (f : A -> bool) (l : list A) :
  (forall x, In x l -> f x = true) -> filter f l = l.
Proof.
  induction l as [|x l IH]; simpl; intros H; [reflexivity|].
  rewrite H by now left. f_equal. apply IH. intros y Hy. apply H. now right.
Qed.

Lemma filter_none {A} (f : A -> bool) (l : list A) :
  (forall x, In x l -> f x = false) -> filter f l = [].
Proof.
  induction l as [|x l IH]; simpl; intros H; [reflexivity|].
  rewrite H by now left. apply IH. intros y Hy. apply H. now right.
Qed.

(** ** The loop over the removed devices *)

Lemma disconnect_twice (d : CloudOutputDevice.t) :
  CloudOutputDevice.disconnect (CloudOutputDevice.disconnect d)
  = CloudOutputDevice.disconnect d.
Proof. reflexivity. Qed.

Lemma disconnect_disconnected (d : CloudOutputDevice.t) :
  CloudOutputDevice.connected d = false -> CloudOutputDevice.disconnect d = d.
Proof. destruct d as [k h c]. simpl. now intros ->. Qed.

(** One pass of the body: the device ends disconnected, its key leaves the
    registry and the table, and the calls are those of [removal_events]. *)
Lemma remove_output_device_spec (r : ref) (w : World) :
  In (CloudOutputDevice.key (heap w r)) (Dict.keys (_remote_clusters w)) ->
  exists w',
    remove_output_device r w = Ok w' /\
    (forall r', heap w' r'
                = if Nat.eqb r' r then CloudOutputDevice.disconnect (heap w r)
                  else heap w r') /\
    next_ref w' = next_ref w /\
    _remote_clusters w'
    = Dict.remove (CloudOutputDevice.key (heap w r)) (_remote_clusters w) /\
    output_devices w'
    = filter (fun k => negb (String.eqb k (CloudOutputDevice.key (heap w r))))
             (output_devices w) /\
    same_surroundings w w' /\
    active_machine w' = active_machine w /\
    trace w' = trace w ++ removal_events (heap w) r.
Proof.
  intros Hin. apply contains_In in Hin.
  unfold remove_output_device, removal_events, CloudOutputDevice.isConnected.
  destruct (CloudOutputDevice.connected (heap w r)) eqn:Hc; simpl;
    rewrite ?Nat.eqb_refl; simpl; unfold Dict.del; rewrite Hin;
    eexists; (split; [reflexivity|]); simpl; unfold same_surroundings;
    repeat split; rewrite <- ?app_assoc; try reflexivity.
  intros r'. destruct (Nat.eqb r' r) eqn:E; [|reflexivity].
  apply Nat.eqb_eq in E. subst. symmetry. now apply disconnect_disconnected.
Qed.

Lemma key_disconnect (d : CloudOutputDevice.t) :
  CloudOutputDevice.key (CloudOutputDevice.disconnect d)
  = CloudOutputDevice.key d.
Proof. reflexivity. Qed.

Lemma same_surroundings_refl (w : World) : same_surroundings w w.
Proof. unfold same_surroundings. auto. Qed.

Lemma same_surroundings_trans (w1 w2 w3 : World) :
  same_surroundings w1 w2 -> same_surroundings w2 w3 ->
  same_surroundings w1 w3.
Proof.
  unfold same_surroundings. intros (A & B & C) (D & E & F).
  repeat split; congruence.
Qed.

Lemma remove_loop_spec (l : list ref) :
  forall w,
    NoDup (map (fun r => CloudOutputDevice.key (heap w r)) l) ->
    (forall r, In r l ->
       In (CloudOutputDevice.key (heap w r))
          (Dict.keys (_remote_clusters w))) ->
    exists w',
      for_each l remove_output_device w = Ok w' /\
      (forall r, heap w' r
                 = if existsb (Nat.eqb r) l
                   then CloudOutputDevice.disconnect (heap w r)
                   else heap w r) /\
      next_ref w' = next_ref w /\
      _remote_clusters w'
      = filter (fun e => negb (existsb (String.eqb (fst e))
                   (map (fun r => CloudOutputDevice.key (heap w r)) l)))
               (_remote_clusters w) /\
      output_devices w'
      = filter (fun k => negb (existsb (String.eqb k)
                   (map (fun r => CloudOutputDevice.key (heap w r)) l)))
               (output_devices w) /\
      same_surroundings w w' /\
      active_machine w' = active_machine w /\
      trace w' = trace w ++ flat_map (removal_events (heap w)) l.
Proof.
  induction l as [|r l IH]; intros w Hnd Hin.
  - exists w. simpl. rewrite app_nil_r.
    repeat split; auto using same_surroundings_refl;
      symmetry; apply filter_all; reflexivity.
  - simpl in Hnd. inversion Hnd as [|? ? Hfresh Hnd']; subst.
    destruct (remove_output_device_spec r w) as
      (w1 & Hrun & Hheap & Hnext & Htab & Hreg & Hsame & Ham & Htr);
      [apply Hin; now left|].
    assert (Hkey : forall r', CloudOutputDevice.key (heap w1 r')
                              = CloudOutputDevice.key (heap w r')).
    { intros r'. rewrite Hheap. destruct (Nat.eqb r' r) eqn:E;
        [apply Nat.eqb_eq in E; now subst | reflexivity]. }
    assert (Hmap : map (fun r => CloudOutputDevice.key (heap w1 r)) l
                   = map (fun r => CloudOutputDevice.key (heap w r)) l).
    { apply map_ext. exact Hkey. }
    destruct (IH w1) as
      (w' & Hrun' & Hheap' & Hnext' & Htab' & Hreg' & Hsame' & Ham' & Htr').
    { now rewrite Hmap. }
    { intros r' Hr'. rewrite Hkey, Htab, keys_remove. apply filter_In. split.
      - apply Hin. now right.
      - apply negb_true_iff, String.eqb_neq. intros Heq. apply Hfresh.
        rewrite <- Heq. apply in_map_iff. now exists r'. }
    exists w'. simpl. unfold and_then. rewrite Hrun.
    split; [exact Hrun'|]. repeat split.
    + intros r'. rewrite Hheap', Hheap.
      destruct (Nat.eqb r' r) eqn:E; simpl.
      * apply Nat.eqb_eq in E. subst.
        now destruct (existsb (Nat.eqb r) l).
      * reflexivity.
    + congruence.
    + rewrite Htab', Htab, Hmap. unfold Dict.remove. rewrite filter_twice.
      apply filter_ext. intros e. now rewrite negb_orb.
    + rewrite Hreg', Hreg, Hmap. rewrite filter_twice.
      apply filter_ext. intros e. now rewrite negb_orb.
    + destruct Hsame as (A & B & C), Hsame' as (D & E & F). congruence.
    + destruct Hsame as (A & B & C), Hsame' as (D & E & F). congruence.
    + destruct Hsame as (A & B & C), Hsame' as (D & E & F). congruence.
    + congruence.
    + rewrite Htr', Htr, <- app_assoc. f_equal. f_equal.
      apply flat_map_agree. intros r' Hr'. unfold removal_events.
      rewrite Hheap. destruct (Nat.eqb r' r) eqn:E; [|reflexivity].
      apply Nat.eqb_eq in E. subst. exfalso. apply Hfresh.
      apply in_map_iff. now exists r.
Qed.

(** ** The loop over the added clusters *)

Lemma add_output_device_spec (c : CloudClusterResponse.t) (w : World) :
  exists w',
    add_output_device c w = Ok w' /\
    (forall r, heap w' r
               = if Nat.eqb r (next_ref w)
                 then CloudOutputDevice.new (CloudClusterResponse.cluster_id c)
                                            (CloudClusterResponse.host_name c)
                 else heap w r) /\
    next_ref w' = S (next_ref w) /\
    _remote_clusters w'
    = Dict.set (CloudClusterResponse.cluster_id c) (next_ref w)
               (_remote_clusters w) /\
    (forall k, In k (output_devices w')
               <-> In k (output_devices w)
                   \/ k = CloudClusterResponse.cluster_id c) /\
    same_surroundings w w' /\
    active_machine w' = active_machine w /\
    trace w' = trace w ++ addition_events (next_ref w) [c].
Proof.
  eexists. split; [reflexivity|]. simpl. rewrite Nat.eqb_refl. simpl.
  unfold same_surroundings. repeat split; try reflexivity.
  - destruct (existsb _ _) eqn:E; [tauto|].
    rewrite in_app_iff. simpl. intuition.
  - destruct (existsb _ _) eqn:E.
    + intros [H | ->]; [assumption|]. now apply existsb_eqb_In.
    + rewrite in_app_iff. simpl. intuition.
  - rewrite <- app_assoc. reflexivity.
Qed.

Lemma add_loop_spec (l : list CloudClusterResponse.t) :
  forall w,
    NoDup (map CloudClusterResponse.cluster_id l) ->
    (forall c, In c l ->
       ~ In (CloudClusterResponse.cluster_id c)
            (Dict.keys (_remote_clusters w))) ->
    exists w',
      for_each l add_output_device w = Ok w' /\
      (forall r, r < next_ref w -> heap w' r = heap w r) /\
      (forall i c, nth_error l i = Some c ->
         heap w' (next_ref w + i)
         = CloudOutputDevice.new (CloudClusterResponse.cluster_id c)
                                 (CloudClusterResponse.host_name c)) /\
      next_ref w' = next_ref w + length l /\
      _remote_clusters w'
      = _remote_clusters w ++ added_entries (next_ref w) l /\
      (forall k, In k (output_devices w')
                 <-> In k (output_devices w)
                     \/ In k (map CloudClusterResponse.cluster_id l)) /\
      same_surroundings w w' /\
      active_machine w' = active_machine w /\
      trace w' = trace w ++ addition_events (next_ref w) l.
Proof.
  induction l as [|c l IH]; intros w Hnd Hfresh.
  - exists w. simpl. unfold added_entries. simpl. rewrite !app_nil_r.
    repeat split; auto using same_surroundings_refl; try tauto; try lia;
      intros i c; destruct i; discriminate.
  - simpl in Hnd. inversion Hnd as [|? ? Hc Hnd']; subst.
    destruct (add_output_device_spec c w) as
      (w1 & Hrun & Hheap & Hnext & Htab & Hreg & Hsame & Ham & Htr).
    assert (Htab1 : _remote_clusters w1
                    = _remote_clusters w
                      ++ [(CloudClusterResponse.cluster_id c, next_ref w)]).
    { rewrite Htab. apply keys_set_new. apply Hfresh. now left. }
    destruct (IH w1 Hnd') as
      (w' & Hrun' & Hold' & Hnew' & Hnext' & Htab' & Hreg' & Hsame' & Ham'
          & Htr').
    { intros c' Hc'. rewrite Htab1. unfold Dict.keys.
      rewrite map_app, in_app_iff. simpl. intros [H | [H | []]].
      - apply (Hfresh c'); [now right | exact H].
      - apply Hc. rewrite H. now apply in_map. }
    exists w'. simpl. unfold and_then. rewrite Hrun. split; [exact Hrun'|].
    repeat split.
    + intros r Hr. rewrite Hold' by lia. rewrite Hheap.
      destruct (Nat.eqb r (next_ref w)) eqn:E; [|reflexivity].
      apply Nat.eqb_eq in E. lia.
    + intros i c' Hi. destruct i as [|i]; simpl in Hi.
      * injection Hi as <-. rewrite Nat.add_0_r, Hold' by lia.
        now rewrite Hheap, Nat.eqb_refl.
      * replace (next_ref w + S i) with (next_ref w1 + i) by lia.
        now apply Hnew'.
    + rewrite Hnext', Hnext. simpl. lia.
    + rewrite Htab', Htab1, Hnext, <- app_assoc. reflexivity.
    + rewrite Hreg', Hreg. simpl. intuition.
    + rewrite Hreg', Hreg. simpl. intuition.
    + destruct Hsame as (A & B & C), Hsame' as (D & E & F). congruence.
    + destruct Hsame as (A & B & C), Hsame' as (D & E & F). congruence.
    + destruct Hsame as (A & B & C), Hsame' as (D & E & F). congruence.
    + congruence.
    + rewrite Htr', Htr, Hnext, <- app_assoc. reflexivity.
Qed.

(** ** The loop over the updated pairs *)

Lemma update_loop_spec (l : list (ref * CloudClusterResponse.t)) :
  forall w,
    exists w',
      for_each l update_output_device w = Ok w' /\
      (forall r, CloudOutputDevice.key (heap w' r)
                 = CloudOutputDevice.key (heap w r)) /\
      (forall r, CloudOutputDevice.connected (heap w' r)
                 = CloudOutputDevice.connected (heap w r)) /\
      (forall r, ~ In r (map fst l) -> heap w' r = heap w r) /\
      (NoDup (map fst l) ->
       forall r c, In (r, c) l ->
         CloudOutputDevice.host_name (heap w' r)
         = CloudClusterResponse.host_name c) /\
      next_ref w' = next_ref w /\
      _remote_clusters w' = _remote_clusters w /\
      output_devices w' = output_devices w /\
      same_surroundings w w' /\
      active_machine w' = active_machine w /\
      trace w' = trace w ++ update_events l.
Proof.
  induction l as [|[r0 c0] l IH]; intros w.
  - exists w. simpl. rewrite app_nil_r.
    repeat split; auto using same_surroundings_refl. intros _ r c [].
  - set (w1 := device_set_host_name r0 (CloudClusterResponse.host_name c0) w).
    destruct (IH w1) as
      (w' & Hrun' & Hkey' & Hconn' & Hout' & Hin' & Hnext' & Htab' & Hreg'
          & Hsame' & Ham' & Htr').
    subst w1. exists w'. split; [exact Hrun'|]. repeat split.
    + intros r. rewrite Hkey'. simpl.
      destruct (Nat.eqb r r0) eqn:E;
        [apply Nat.eqb_eq in E; subst|]; reflexivity.
    + intros r. rewrite Hconn'. simpl.
      destruct (Nat.eqb r r0) eqn:E;
        [apply Nat.eqb_eq in E; subst|]; reflexivity.
    + simpl. intros r Hr. rewrite Hout' by tauto. simpl.
      destruct (Nat.eqb r r0) eqn:E; [|reflexivity].
      apply Nat.eqb_eq in E. subst. tauto.
    + simpl. intros Hnd r c [Heq | Hin].
      * injection Heq as <- <-. inversion Hnd; subst.
        rewrite Hout' by assumption. simpl. now rewrite Nat.eqb_refl.
      * inversion Hnd; subst. now apply Hin'.
    + exact Hnext'.
    + exact Htab'.
    + exact Hreg'.
    + apply Hsame'.
    + apply Hsame'.
    + apply Hsame'.
    + exact Ham'.
    + rewrite Htr'. simpl. rewrite <- app_assoc. reflexivity.
Qed.

(** ** The dictionary of online clusters *)

Lemma In_set {V} (k k' : string) (v v' : V) (d : Dict.t V) :
  In (k', v') (Dict.set k v d) -> (k' = k /\ v' = v) \/ In (k', v') d.
Proof.
  unfold Dict.set. destruct (Dict.contains k d).
  - rewrite in_map_iff. intros [[k0 v0] [Heq Hin]]. simpl in Heq.
    destruct (String.eqb k0 k).
    + injection Heq as <- <-. now left.
    + injection Heq as <- <-. now right.
  - rewrite in_app_iff. simpl. intros [H | [H | []]]; [now right|].
    injection H as <- <-. now left.
Qed.

Lemma online_fold_spec (l : list CloudClusterResponse.t) :
  forall d : Dict.t CloudClusterResponse.t,
    NoDup (Dict.keys d) ->
    (forall k c, In (k, c) d -> CloudClusterResponse.cluster_id c = k) ->
    let d' := fold_left
                (fun d c => Dict.set (CloudClusterResponse.cluster_id c) c d)
                l d in
    NoDup (Dict.keys d') /\
    (forall k c, In (k, c) d' ->
       CloudClusterResponse.cluster_id c = k /\ (In (k, c) d \/ In c l)) /\
    (forall k, In k (Dict.keys d')
               <-> In k (Dict.keys d)
                   \/ In k (map CloudClusterResponse.cluster_id l)).
Proof.
  induction l as [|c l IH]; intros d Hnd Hid; simpl.
  - repeat split; auto; tauto.
  - destruct (IH (Dict.set (CloudClusterResponse.cluster_id c) c d))
      as (Hnd' & Hid' & Hkeys').
    + now apply NoDup_keys_set.
    + intros k c' Hin. apply In_set in Hin.
      destruct Hin as [[-> ->] | Hin]; [reflexivity | now apply Hid].
    + split; [exact Hnd'|]. split.
      * intros k c' Hin. destruct (Hid' k c' Hin) as [Hk [H | H]].
        -- split; [exact Hk|]. apply In_set in H.
           destruct H as [[_ ->] | H]; auto.
        -- auto.
      * intros k. rewrite Hkeys', In_keys_set. intuition.
Qed.

Lemma online_clusters_spec (cs : list CloudClusterResponse.t) :
  NoDup (Dict.keys (online_clusters cs)) /\
  (forall k c, In (k, c) (online_clusters cs) ->
     CloudClusterResponse.cluster_id c = k /\
     CloudClusterResponse.is_online c = true /\ In c cs) /\
  (forall k, In k (Dict.keys (online_clusters cs))
             <-> exists c, In c cs
                           /\ CloudClusterResponse.is_online c = true
                           /\ CloudClusterResponse.cluster_id c = k).
Proof.
  unfold online_clusters.
  destruct (online_fold_spec (filter CloudClusterResponse.is_online cs) [])
    as (Hnd & Hid & Hkeys); [constructor | intros k c [] |].
  split; [exact Hnd|]. split.
  - intros k c Hin. destruct (Hid k c Hin) as [Hk [[] | H]].
    apply filter_In in H. tauto.
  - intros k. rewrite Hkeys. simpl. rewrite in_map_iff. split.
    + intros [[] | [c [Hk Hin]]]. apply filter_In in Hin. exists c. tauto.
    + intros [c (Hin & Hon & Hk)]. right. exists c.
      split; [exact Hk|]. apply filter_In. tauto.
Qed.

Section Reconciliation.

Variable matchesNetworkKey : CloudOutputDevice.t -> string -> bool.

(** ** The connection resolver *)

Lemma resolver_frame_refl (w : World) : resolver_frame w w.
Proof.
  unfold resolver_frame. repeat split; auto using same_surroundings_refl.
  exists []. now rewrite app_nil_r.
Qed.

Lemma connectByNetworkKey_frame (active : GlobalStack.t) (w : World) :
  exists w',
    _connectByNetworkKey matchesNetworkKey active w = Ok w'
    /\ resolver_frame w w'.
Proof.
  unfold _connectByNetworkKey.
  destruct (GlobalStack.getMetaDataEntry "um_network_key" active) as [nk|];
    [|exists w; auto using resolver_frame_refl].
  destruct (String.eqb nk ""); [exists w; auto using resolver_frame_refl|].
  destruct (find _ _) as [r|]; [|exists w; auto using resolver_frame_refl].
  eexists. split; [reflexivity|].
  unfold resolver_frame, same_surroundings. simpl.
  repeat split; try reflexivity.
  - intros r'. now destruct (Nat.eqb r' r) eqn:E;
      [apply Nat.eqb_eq in E; subst|].
  - intros r'. now destruct (Nat.eqb r' r) eqn:E;
      [apply Nat.eqb_eq in E; subst|].
  - eexists. rewrite <- app_assoc. split; reflexivity.
Qed.

(** The resolver never raises, and stays within its frame. *)
Lemma connectToActiveMachine_frame (w : World) :
  exists w',
    _connectToActiveMachine matchesNetworkKey w = Ok w'
    /\ resolver_frame w w'.
Proof.
  unfold _connectToActiveMachine.
  destruct (active_machine w) as [active|];
    [|exists w; auto using resolver_frame_refl].
  destruct (GlobalStack.getMetaDataEntry META_CLUSTER_ID active) as [k|];
    [|apply connectByNetworkKey_frame].
  destruct (Dict.contains k (_remote_clusters w)) eqn:Hc;
    [|apply connectByNetworkKey_frame].
  destruct (contains_get _ _ Hc) as [r ->].
  destruct (CloudOutputDevice.isConnected (heap w r));
    [exists w; auto using resolver_frame_refl|].
  eexists. split; [reflexivity|].
  unfold resolver_frame, same_surroundings. simpl.
  repeat split; try reflexivity.
  - intros r'. now destruct (Nat.eqb r' r) eqn:E;
      [apply Nat.eqb_eq in E; subst|].
  - intros r'. now destruct (Nat.eqb r' r) eqn:E;
      [apply Nat.eqb_eq in E; subst|].
  - eexists. split; reflexivity.
Qed.

(** ** The three loops of a reconciliation *)

Lemma NoDup_map_filter {A B} (g : A -> B) (f : A -> bool) (l : list A) :
  NoDup (map g l) -> NoDup (map g (filter f l)).
Proof.
  induction l as [|x l IH]; simpl; intros H; [constructor|].
  inversion H as [|? ? Hx Hl]; subst.
  destruct (f x); simpl; [|now apply IH].
  constructor; [|now apply IH].
  intros Hin. apply Hx. apply in_map_iff in Hin.
  destruct Hin as [y [Hy Hin]]. apply filter_In in Hin.
  apply in_map_iff. exists y. tauto.
Qed.

Lemma keys_of_values (h : ref -> CloudOutputDevice.t) (d : Dict.t ref) :
  (forall k r, In (k, r) d -> CloudOutputDevice.key (h r) = k) ->
  map (fun r => CloudOutputDevice.key (h r)) (Dict.values d) = Dict.keys d.
Proof.
  intros H. unfold Dict.values, Dict.keys. rewrite map_map.
  apply map_ext_in. intros [k r] Hin. simpl. now apply H.
Qed.

Lemma ids_of_values (d : Dict.t CloudClusterResponse.t) :
  (forall k c, In (k, c) d -> CloudClusterResponse.cluster_id c = k) ->
  map CloudClusterResponse.cluster_id (Dict.values d) = Dict.keys d.
Proof.
  intros H. unfold Dict.values, Dict.keys. rewrite map_map.
  apply map_ext_in. intros [k c] Hin. simpl. now apply H.
Qed.

Lemma keys_added_entries (l : list CloudClusterResponse.t) :
  forall n,
    Dict.keys (added_entries n l) = map CloudClusterResponse.cluster_id l.
Proof.
  induction l as [|c l IH]; intros n; [reflexivity|].
  unfold added_entries in *. simpl. f_equal. apply IH.
Qed.

Lemma In_added_entries (l : list CloudClusterResponse.t) :
  forall n k r,
    In (k, r) (added_entries n l) ->
    exists i c, nth_error l i = Some c
                /\ k = CloudClusterResponse.cluster_id c /\ r = n + i.
Proof.
  induction l as [|c l IH]; intros n k r; [intros []|].
  unfold added_entries in *. simpl. intros [Heq | Hin].
  - injection Heq as <- <-. exists 0, c. simpl. repeat split. lia.
  - destruct (IH _ _ _ Hin) as (i & c' & Hi & Hk & Hr).
    exists (S i), c'. simpl. repeat split; auto. lia.
Qed.

Lemma findChanges_removed h previous current :
  fst (fst (findChanges h previous current))
  = Dict.values
      (filter (fun e => negb (Dict.contains (fst e) current)) previous).
Proof. reflexivity. Qed.

Lemma findChanges_added h previous current :
  snd (fst (findChanges h previous current))
  = Dict.values
      (filter (fun e => negb (Dict.contains (fst e) previous)) current).
Proof. reflexivity. Qed.

Lemma In_findChanges_updated h previous current r c :
  In (r, c) (snd (findChanges h previous current)) ->
  exists k, In (k, r) previous /\ Dict.get k current = Some c.
Proof.
  unfold findChanges. simpl. rewrite in_flat_map.
  intros [[k r'] [Hin Hm]]. simpl in Hm.
  destruct (Dict.get k current) as [c'|] eqn:E; [|contradiction].
  destruct (String.eqb _ _); [contradiction|].
  destruct Hm as [Heq | []]. injection Heq as <- <-. now exists k.
Qed.

(** A reconciliation of a well-formed table: the loops run to completion,
    then the resolver runs on the world [w3] they leave behind. *)
Lemma reconcile_spec (cs : list CloudClusterResponse.t) (w : World) :
  well_formed w ->
  keys_agree w ->
  let online := online_clusters cs in
  let removed := fst (fst (findChanges (heap w) (_remote_clusters w) online)) in
  let added := snd (fst (findChanges (heap w) (_remote_clusters w) online)) in
  let updates := snd (findChanges (heap w) (_remote_clusters w) online) in
  exists w3 w',
    _onGetRemoteClustersFinished matchesNetworkKey cs w = Ok w' /\
    _connectToActiveMachine matchesNetworkKey w3 = Ok w' /\
    resolver_frame w3 w' /\
    _remote_clusters w3
    = filter (fun e => Dict.contains (fst e) online) (_remote_clusters w)
      ++ added_entries (next_ref w) added /\
    next_ref w3 = next_ref w + length added /\
    (forall k, In k (output_devices w3)
               <-> (In k (output_devices w)
                    /\ ~ In k (map (fun r => CloudOutputDevice.key (heap w r))
                                   removed))
                   \/ In k (map CloudClusterResponse.cluster_id added)) /\
    (forall r, r < next_ref w ->
       CloudOutputDevice.key (heap w3 r) = CloudOutputDevice.key (heap w r)) /\
    (forall r, r < next_ref w ->
       CloudOutputDevice.connected (heap w3 r)
       = if existsb (Nat.eqb r) removed then false
         else CloudOutputDevice.connected (heap w r)) /\
    same_surroundings w w3 /\
    active_machine w3 = active_machine w /\
    trace w3
    = trace w ++ flat_map (removal_events (heap w)) removed
              ++ addition_events (next_ref w) added
              ++ update_events updates /\
    well_formed w3 /\
    keys_agree w3 /\
    (registry_agrees w -> registry_agrees w3).
Proof.
  intros [Hnd Halloc] Hka online removed added updates.
  destruct (online_clusters_spec cs) as (Hond & Honid & _).
  fold online in Hond, Honid.
  (* the removed devices are table entries whose key went away *)
  assert (Hrem : forall r, In r removed ->
            exists k, In (k, r) (_remote_clusters w)
                      /\ Dict.contains k online = false).
  { intros r Hr. unfold removed in Hr. rewrite findChanges_removed in Hr.
    apply values_In in Hr. destruct Hr as [k Hk]. apply filter_In in Hk.
    simpl in Hk. exists k. now rewrite <- negb_true_iff. }
  assert (Hremkeys :
            map (fun r => CloudOutputDevice.key (heap w r)) removed
            = Dict.keys (filter (fun e => negb (Dict.contains (fst e) online))
                                (_remote_clusters w))).
  { unfold removed. rewrite findChanges_removed. apply keys_of_values.
    intros k r Hin. apply filter_In in Hin. now apply Hka. }
  destruct (remove_loop_spec removed w) as
    (w1 & Hrun1 & Hheap1 & Hnext1 & Htab1 & Hreg1 & Hsame1 & Ham1 & Htr1).
  { rewrite Hremkeys. now apply NoDup_map_filter. }
  { intros r Hr. destruct (Hrem r Hr) as (k & Hin & _).
    rewrite (Hka _ _ Hin). now apply In_keys with r. }
  assert (Htab1' : _remote_clusters w1
                   = filter (fun e => Dict.contains (fst e) online)
                            (_remote_clusters w)).
  { rewrite Htab1, Hremkeys. apply filter_ext_in. intros [k r] Hin. simpl.
    destruct (Dict.contains k online) eqn:E.
    - apply negb_true_iff, existsb_eqb_not_In. intros Hk.
      apply keys_In in Hk. destruct Hk as [r' Hk]. apply filter_In in Hk.
      simpl in Hk. rewrite E in Hk. now destruct Hk.
    - apply negb_false_iff, existsb_eqb_In. apply In_keys with r.
      apply filter_In. simpl. now rewrite E. }
  (* the added clusters are new to the table *)
  assert (Hadd : forall c, In c added ->
            In (CloudClusterResponse.cluster_id c, c) online
            /\ ~ In (CloudClusterResponse.cluster_id c)
                    (Dict.keys (_remote_clusters w))).
  { intros c Hc. unfold added in Hc. rewrite findChanges_added in Hc.
    apply values_In in Hc. destruct Hc as [k Hk]. apply filter_In in Hk.
    simpl in Hk. destruct Hk as [Hin Hk].
    destruct (Honid _ _ Hin) as (<- & _). split; [exact Hin|].
    now apply contains_not_In, negb_true_iff. }
  assert (Haddkeys :
            map CloudClusterResponse.cluster_id added
            = Dict.keys (filter (fun e => negb (Dict.contains (fst e)
                                                  (_remote_clusters w)))
                                online)).
  { unfold added. rewrite findChanges_added. apply ids_of_values.
    intros k c Hin. apply filter_In in Hin. now apply Honid. }
  assert (Hsub : forall k r, In (k, r) (_remote_clusters w1) ->
                             In (k, r) (_remote_clusters w)).
  { intros k r. rewrite Htab1'. intros H. now apply filter_In in H. }
  destruct (add_loop_spec added w1) as
    (w2 & Hrun2 & Hold2 & Hnew2 & Hnext2 & Htab2 & Hreg2 & Hsame2 & Ham2
        & Htr2).
  { rewrite Haddkeys. now apply NoDup_map_filter. }
  { intros c Hc Hin. apply (proj2 (Hadd c Hc)). apply keys_In in Hin.
    destruct Hin as [r Hin]. apply In_keys with r. now apply Hsub. }
  destruct (update_loop_spec updates w2) as
    (w3 & Hrun3 & Hkey3 & Hconn3 & _ & _ & Hnext3 & Htab3 & Hreg3 & Hsame3
        & Ham3 & Htr3).
  destruct (connectToActiveMachine_frame w3) as (w' & Hrun4 & Hframe).
  assert (Hkeyold : forall r, r < next_ref w ->
            CloudOutputDevice.key (heap w3 r)
            = CloudOutputDevice.key (heap w r)).
  { intros r Hr. rewrite Hkey3, Hold2 by lia. rewrite Hheap1.
    now destruct (existsb (Nat.eqb r) removed). }
  assert (Htab : _remote_clusters w3
                 = filter (fun e => Dict.contains (fst e) online)
                          (_remote_clusters w)
                   ++ added_entries (next_ref w) added).
  { rewrite Htab3, Htab2, Htab1', Hnext1. reflexivity. }
  exists w3, w'. split; [|split; [exact Hrun4|split; [exact Hframe|]]].
  { change (_onGetRemoteClustersFinished matchesNetworkKey cs w)
      with ((for_each removed remove_output_device ;;
             for_each added add_output_device ;;
             for_each updates update_output_device ;;
             _connectToActiveMachine matchesNetworkKey) w).
    unfold and_then. now rewrite Hrun1, Hrun2, Hrun3. }
  split; [exact Htab|]. split; [lia|]. split.
  { intros k. rewrite Hreg3, Hreg2, Hreg1, filter_In, negb_true_iff.
    rewrite existsb_eqb_not_In. tauto. }
  split; [exact Hkeyold|]. split.
  { intros r Hr. rewrite Hconn3, Hold2 by lia. rewrite Hheap1.
    now destruct (existsb (Nat.eqb r) removed). }
  split.
  { eauto using same_surroundings_trans. }
  split; [congruence|]. split.
  { rewrite Htr3, Htr2, Htr1, Hnext1, <- !app_assoc. reflexivity. }
  split; [split|split].
  - (* one entry per key *)
    unfold keys_unique. rewrite Htab. unfold Dict.keys at 1.
    rewrite map_app. apply NoDup_app.
    + now apply NoDup_map_filter.
    + fold (Dict.keys (added_entries (next_ref w) added)).
      rewrite keys_added_entries, Haddkeys. now apply NoDup_map_filter.
    + intros k Hk1 Hk2.
      fold (Dict.keys (added_entries (next_ref w) added)) in Hk2.
      rewrite keys_added_entries in Hk2. apply in_map_iff in Hk2.
      destruct Hk2 as [c [<- Hc]]. apply (proj2 (Hadd c Hc)).
      apply in_map_iff in Hk1. destruct Hk1 as [[k r] [Hk Hin]].
      simpl in Hk. subst k. apply filter_In in Hin.
      apply In_keys with r. tauto.
  - (* references are allocated *)
    intros k r. rewrite Htab, in_app_iff. intros [Hin | Hin].
    + apply filter_In in Hin. destruct Hin as [Hin _].
      apply Halloc in Hin. lia.
    + apply In_added_entries in Hin. destruct Hin as (i & c & Hi & _ & ->).
      assert (i < length added) by (apply nth_error_Some; congruence). lia.
  - (* each entry maps its key to a device with that key *)
    intros k r. rewrite Htab, in_app_iff. intros [Hin | Hin].
    + apply filter_In in Hin. destruct Hin as [Hin _].
      rewrite Hkeyold by now apply Halloc in Hin. now apply Hka.
    + apply In_added_entries in Hin. destruct Hin as (i & c & Hi & -> & ->).
      rewrite Hkey3, <- Hnext1, (Hnew2 _ _ Hi). reflexivity.
  - (* registry and table hold the same keys *)
    intros Hra k. rewrite Hreg3, Hreg2, Hreg1, Htab.
    unfold Dict.keys at 1. rewrite map_app, in_app_iff.
    fold (Dict.keys (added_entries (next_ref w) added)).
    rewrite keys_added_entries, filter_In, negb_true_iff.
    rewrite existsb_eqb_not_In, Hremkeys, <- (Hra k).
    split; (intros [H | H]; [left | now right]).
    + apply in_map_iff in H. destruct H as [[k' r] [Hk Hin]].
      simpl in Hk. subst k'. apply filter_In in Hin. simpl in Hin.
      destruct Hin as [Hin Hon]. split; [now apply In_keys with r|].
      intros Hk. apply keys_In in Hk. destruct Hk as [r' Hk].
      apply filter_In in Hk. simpl in Hk. rewrite Hon in Hk. now destruct Hk.
    + destruct H as [Hin Hnot]. apply keys_In in Hin.
      destruct Hin as [r Hin]. apply in_map_iff. exists (k, r).
      split; [reflexivity|]. apply filter_In. split; [exact Hin|]. simpl.
      destruct (Dict.contains k online) eqn:E; [reflexivity|].
      exfalso. apply Hnot. apply In_keys with r. apply filter_In.
      simpl. now rewrite E.
Qed.

(** ** Table and registry stay in step *)

Lemma resolver_frame_invariant (w w' : World) :
  resolver_frame w w' ->
  well_formed w -> synchronised w ->
  well_formed w' /\ synchronised w'.
Proof.
  intros (Htab & Hnext & Hreg & _ & Hkey & _) [Hnd Halloc] [Hra Hka].
  unfold well_formed, synchronised, keys_unique, refs_allocated,
    registry_agrees, keys_agree.
  rewrite Htab, Hnext, Hreg. repeat split; auto; try apply Hra.
  intros k r Hin. rewrite Hkey. now apply Hka.
Qed.

Lemma reconcile_preserves (cs : list CloudClusterResponse.t) (w : World) :
  well_formed w -> synchronised w ->
  exists w',
    _onGetRemoteClustersFinished matchesNetworkKey cs w = Ok w'
    /\ well_formed w' /\ synchronised w' /\ _running w' = _running w.
Proof.
  intros Hwf [Hra Hka].
  destruct (reconcile_spec cs w Hwf Hka) as
    (w3 & w' & Hrun & _ & Hframe & _ & _ & _ & _ & _ & Hsame & _ & _ & Hwf3
        & Hka3 & Hra3).
  exists w'. split; [exact Hrun|].
  destruct (resolver_frame_invariant w3 w' Hframe Hwf3) as [Hwf' Hsync'];
    [split; auto|].
  split; [exact Hwf' | split; [exact Hsync'|]].
  destruct Hframe as (_ & _ & _ & (_ & Hr' & _) & _), Hsame as (_ & Hr & _).
  congruence.
Qed.

Lemma onLoginStateChanged_preserves (b : bool) (w : World) :
  well_formed w -> synchronised w ->
  exists w',
    _onLoginStateChanged matchesNetworkKey b w = Ok w'
    /\ well_formed w' /\ synchronised w' /\ _running w' = _running w.
Proof.
  intros Hwf Hsync. destruct b; unfold _onLoginStateChanged, and_then, pure.
  - eexists. split; [reflexivity|].
    destruct (QTimer.isActive (_update_timer w)); repeat split;
      solve [apply Hwf | apply Hsync].
  - destruct (QTimer.isActive (_update_timer w));
      [|now apply reconcile_preserves].
    destruct (reconcile_preserves []
                (log TimerStop
                   (set_update_timer (QTimer.stop (_update_timer w)) w)))
      as (w' & H1 & H2 & H3 & H4); [exact Hwf | exact Hsync |].
    exists w'.
    split; [exact H1 | split; [exact H2 | split; [exact H3 | exact H4]]].
Qed.

(** ** Draining the table *)

Lemma findChanges_empty (h : ref -> CloudOutputDevice.t) (d : Dict.t ref) :
  findChanges h d (online_clusters []) = (Dict.values d, [], []).
Proof.
  unfold findChanges. simpl. f_equal; [f_equal|].
  - f_equal. apply filter_all. reflexivity.
  - induction d as [|e d IH]; [reflexivity | exact IH].
Qed.

Lemma resolver_empty_table (w : World) :
  _remote_clusters w = [] ->
  _connectToActiveMachine matchesNetworkKey w = Ok w.
Proof.
  intros Htab. unfold _connectToActiveMachine, _connectByNetworkKey.
  rewrite Htab. simpl.
  destruct (active_machine w) as [active|]; [|reflexivity].
  destruct (GlobalStack.getMetaDataEntry META_CLUSTER_ID active);
    destruct (GlobalStack.getMetaDataEntry "um_network_key" active) as [nk|];
    try reflexivity; now destruct (String.eqb nk "").
Qed.

(** Reconciling against the empty result tears down every device of the
    table, in table order, and leaves the table empty. *)
Lemma drain_spec (w : World) :
  well_formed w -> keys_agree w ->
  exists w',
    _onGetRemoteClustersFinished matchesNetworkKey [] w = Ok w' /\
    _remote_clusters w' = [] /\
    (forall k, In k (output_devices w')
               <-> In k (output_devices w)
                   /\ ~ In k (Dict.keys (_remote_clusters w))) /\
    (forall r, In r (Dict.values (_remote_clusters w)) ->
       CloudOutputDevice.connected (heap w' r) = false) /\
    same_surroundings w w' /\
    active_machine w' = active_machine w /\
    trace w'
    = trace w
      ++ flat_map (removal_events (heap w)) (Dict.values (_remote_clusters w)).
Proof.
  intros Hwf Hka.
  destruct (reconcile_spec [] w Hwf Hka) as
    (w3 & w' & Hrun & Hres & _ & Htab & _ & Hreg & _ & Hconn & Hsame & Ham
        & Htr & _).
  rewrite findChanges_empty in *. simpl in *.
  assert (Htab3 : _remote_clusters w3 = []).
  { rewrite Htab, app_nil_r. apply filter_none. reflexivity. }
  rewrite (resolver_empty_table w3 Htab3) in Hres. injection Hres as <-.
  exists w3. split; [exact Hrun|]. split; [exact Htab3|].
  rewrite app_nil_r in Htr.
  split; [|split; [|split; [exact Hsame | split; assumption]]].
  - intros k. rewrite Hreg, keys_of_values by exact Hka. tauto.
  - intros r Hr. apply values_In in Hr. destruct Hr as [k Hin].
    rewrite Hconn by (destruct Hwf as [_ Halloc]; now apply Halloc in Hin).
    apply In_values in Hin. apply existsb_nat_In in Hin. now rewrite Hin.
Qed.

Lemma logout_spec (w : World) :
  well_formed w ->
  keys_agree w ->
  exists w0 w',
    _onLoginStateChanged matchesNetworkKey false w = Ok w' /\
    (* first the timer *)
    QTimer.isActive (_update_timer w0) = false /\
    _remote_clusters w0 = _remote_clusters w /\
    heap w0 = heap w /\
    trace w0
    = trace w
      ++ (if QTimer.isActive (_update_timer w) then [TimerStop] else []) /\
    (* then the reconciliation against the empty result *)
    _onGetRemoteClustersFinished matchesNetworkKey [] w0 = Ok w' /\
    findChanges (heap w0) (_remote_clusters w0) (online_clusters [])
    = (Dict.values (_remote_clusters w), [], []) /\
    _remote_clusters w' = [] /\
    QTimer.isActive (_update_timer w') = false /\
    trace w'
    = trace w0
      ++ flat_map (removal_events (heap w)) (Dict.values (_remote_clusters w))
    /\
    (* interval and repetition of the timer are left alone *)
    QTimer.interval (_update_timer w') = QTimer.interval (_update_timer w) /\
    QTimer.singleShot (_update_timer w')
    = QTimer.singleShot (_update_timer w).
Proof.
  intros Hwf Hka.
  set (w0 := if QTimer.isActive (_update_timer w)
             then log TimerStop
                    (set_update_timer (QTimer.stop (_update_timer w)) w)
             else w).
  assert (H0 : QTimer.isActive (_update_timer w0) = false
               /\ _remote_clusters w0 = _remote_clusters w
               /\ heap w0 = heap w
               /\ next_ref w0 = next_ref w
               /\ trace w0
                  = trace w ++ (if QTimer.isActive (_update_timer w)
                                then [TimerStop] else [])).
  { unfold w0. destruct (QTimer.isActive (_update_timer w)) eqn:E; simpl;
      rewrite ?app_nil_r; auto. }
  destruct H0 as (Hoff & Htab0 & Hheap0 & Hnext0 & Htr0).
  assert (Hcfg : QTimer.interval (_update_timer w0)
                 = QTimer.interval (_update_timer w)
                 /\ QTimer.singleShot (_update_timer w0)
                    = QTimer.singleShot (_update_timer w)).
  { unfold w0. now destruct (QTimer.isActive (_update_timer w)). }
  destruct (drain_spec w0) as
    (w' & Hrun & Htab & _ & _ & Hsame & _ & Htr).
  { unfold well_formed, keys_unique, refs_allocated.
    rewrite Htab0, Hnext0. exact Hwf. }
  { unfold keys_agree. rewrite Htab0, Hheap0. exact Hka. }
  destruct Hsame as (Ht & _).
  exists w0, w'. split; [exact Hrun|].
  repeat split; try assumption.
  - rewrite findChanges_empty. now rewrite Htab0.
  - unfold QTimer.isActive in *. now rewrite Ht.
  - now rewrite Htr, Hheap0, Htab0.
  - rewrite Ht. apply Hcfg.
  - rewrite Ht. apply Hcfg.
Qed.

(** C9.  When the login state becomes false the timer is disarmed first
    (a running timer is stopped, the trace shows [TimerStop] before
    anything else), then the reconciliation runs on the empty result: its
    diff is [removed] = every device of the table, [added] = none,
    [updated] = none, every device is torn down and the table ends
    empty. *)
Theorem logout_disarms_and_drains (w : World) :
  well_formed w ->
  keys_agree w ->
  exists w0 w',
    _onLoginStateChanged matchesNetworkKey false w = Ok w' /\
    (* first the timer *)
    QTimer.isActive (_update_timer w0) = false /\
    _remote_clusters w0 = _remote_clusters w /\
    heap w0 = heap w /\
    trace w0
    = trace w
      ++ (if QTimer.isActive (_update_timer w) then [TimerStop] else []) /\
    (* then the reconciliation against the empty result *)
    _onGetRemoteClustersFinished matchesNetworkKey [] w0 = Ok w' /\
    findChanges (heap w0) (_remote_clusters w0) (online_clusters [])
    = (Dict.values (_remote_clusters w), [], []) /\
    _remote_clusters w' = [] /\
    QTimer.isActive (_update_timer w') = false /\
    trace w'
    = trace w0
      ++ flat_map (removal_events (heap w)) (Dict.values (_remote_clusters w))
    /\
    (* interval and repetition of the timer are left alone *)
    QTimer.interval (_update_timer w') = QTimer.interval (_update_timer w) /\
    QTimer.singleShot (_update_timer w')
    = QTimer.singleShot (_update_timer w).
Proof. exact (logout_spec w). Qed.

(** ** The order in which a diff is applied *)

Lemma close_count_removals (h : ref -> CloudOutputDevice.t) (r : ref)
    (l : list ref) :
  length (filter (event_eqb_close r) (flat_map (removal_events h) l))
  = length (filter (fun r' => Nat.eqb r' r) l).
Proof.
  induction l as [|r' l IH]; [reflexivity|].
  simpl. rewrite filter_app, length_app, IH. unfold removal_events.
  destruct (CloudOutputDevice.isConnected (h r')); simpl;
    destruct (Nat.eqb r' r); reflexivity.
Qed.

Lemma count_in_NoDup (r : ref) (l : list ref) :
  NoDup l -> In r l -> length (filter (fun r' => Nat.eqb r' r) l) = 1.
Proof.
  induction l as [|r' l IH]; intros Hnd Hin; [contradiction|].
  inversion Hnd as [|? ? Hnotin Hnd']; subst. simpl.
  destruct (Nat.eqb r' r) eqn:E.
  - apply Nat.eqb_eq in E. subst. simpl. f_equal.
    rewrite filter_none; [reflexivity|]. intros x Hx.
    apply Nat.eqb_neq. intros ->. contradiction.
  - apply Nat.eqb_neq in E. destruct Hin as [-> | Hin]; [contradiction|].
    now apply IH.
Qed.

Lemma no_close_in_additions (r : ref) (l : list CloudClusterResponse.t) :
  forall n, filter (event_eqb_close r) (addition_events n l) = [].
Proof. induction l as [|c l IH]; intros n; simpl; auto. Qed.

Lemma no_close_in_updates (r : ref)
    (l : list (ref * CloudClusterResponse.t)) :
  filter (event_eqb_close r) (update_events l) = [].
Proof. induction l as [|u l IH]; simpl; auto. Qed.

Lemma no_close_in_resolver (r : ref) (evs : list Event) :
  forallb is_resolver_event evs = true ->
  filter (event_eqb_close r) evs = [].
Proof.
  induction evs as [|e evs IH]; simpl; [reflexivity|].
  intros H. apply andb_true_iff in H. destruct H as [He Hevs].
  destruct e; try discriminate; simpl; auto.
Qed.

(** C8.  A successful poll first tears down all removed devices, then
    creates and registers a device for each added record, then patches the
    updated pairs, and only then runs the resolver.  For a removed device
    the calls are [disconnect] if and only if it is connected at that
    moment, then [close], then [removeOutputDevice]; [close] is called once
    on it, and afterwards its key is in neither registry nor table. *)
Theorem diff_applied_removed_added_updated
    (cs : list CloudClusterResponse.t) (w : World) :
  well_formed w ->
  keys_agree w ->
  let changes :=
    findChanges (heap w) (_remote_clusters w) (online_clusters cs) in
  let removed := fst (fst changes) in
  let added := snd (fst changes) in
  let updates := snd changes in
  exists w' resolver_events,
    _onGetRemoteClustersFinished matchesNetworkKey cs w = Ok w' /\
    trace w'
    = trace w
      ++ flat_map
           (fun r =>
              (if CloudOutputDevice.isConnected (heap w r)
               then [DeviceDisconnect r] else [])
              ++ [DeviceClose r;
                  RemoveOutputDevice (CloudOutputDevice.key (heap w r))])
           removed
      ++ addition_events (next_ref w) added
      ++ update_events updates
      ++ resolver_events /\
    forallb is_resolver_event resolver_events = true /\
    forall r,
      In r removed ->
      length (filter (event_eqb_close r)
                (skipn (length (trace w)) (trace w'))) = 1 /\
      ~ In (CloudOutputDevice.key (heap w r))
           (Dict.keys (_remote_clusters w')) /\
      ~ In (CloudOutputDevice.key (heap w r)) (output_devices w').
Proof.
  intros Hwf Hka changes removed added updates.
  destruct (reconcile_spec cs w Hwf Hka) as
    (w3 & w' & Hrun & _ & Hframe & Htab & _ & Hreg & _ & _ & _ & _ & Htr
        & _).
  fold changes in Htab, Hreg, Htr. fold removed in Hreg, Htr.
  fold added in Htab, Hreg, Htr. fold updates in Htr.
  destruct Hframe as (Htab' & _ & Hreg' & _ & _ & _ & evs & Htr' & Hevs).
  destruct (online_clusters_spec cs) as (_ & Honid & _).
  assert (Hidadded : forall k,
            In k (map CloudClusterResponse.cluster_id added) ->
            Dict.contains k (online_clusters cs) = true).
  { intros k Hk. apply in_map_iff in Hk. destruct Hk as [c [<- Hc]].
    unfold added, changes in Hc. rewrite findChanges_added in Hc.
    apply values_In in Hc. destruct Hc as [k Hk]. apply filter_In in Hk.
    destruct Hk as [Hin _]. destruct (Honid _ _ Hin) as (-> & _).
    apply contains_In. now apply In_keys with c. }
  assert (Hrem : forall r, In r removed ->
            In r (Dict.values (_remote_clusters w)) /\
            Dict.contains (CloudOutputDevice.key (heap w r))
                          (online_clusters cs) = false).
  { intros r Hr. unfold removed, changes in Hr.
    rewrite findChanges_removed in Hr. apply values_In in Hr.
    destruct Hr as [k Hk]. apply filter_In in Hk. simpl in Hk.
    destruct Hk as [Hin Hk]. rewrite (Hka _ _ Hin).
    split; [now apply In_values with k | now apply negb_true_iff]. }
  assert (Hndrem : NoDup removed).
  { unfold removed, changes. rewrite findChanges_removed.
    apply NoDup_map_filter.
    apply (NoDup_map_inv (fun r => CloudOutputDevice.key (heap w r))).
    fold (Dict.values (_remote_clusters w)).
    rewrite keys_of_values by exact Hka. apply Hwf. }
  exists w', evs. split; [exact Hrun|]. split.
  { rewrite Htr', Htr, <- !app_assoc. reflexivity. }
  split; [exact Hevs|]. intros r Hr. destruct (Hrem r Hr) as [_ Hoff].
  split; [|split].
  - rewrite Htr', Htr, <- !app_assoc, skipn_app, skipn_all, Nat.sub_diag.
    simpl. rewrite !filter_app, !length_app.
    rewrite no_close_in_additions, no_close_in_updates.
    rewrite (no_close_in_resolver _ _ Hevs). simpl.
    rewrite !Nat.add_0_r, close_count_removals.
    now apply count_in_NoDup.
  - rewrite Htab', Htab. unfold Dict.keys. rewrite map_app, in_app_iff.
    intros [H | H].
    + apply in_map_iff in H. destruct H as [[k r'] [Hk Hin]]. simpl in Hk.
      subst k. apply filter_In in Hin. simpl in Hin. destruct Hin as [_ Hon].
      congruence.
    + fold (Dict.keys (added_entries (next_ref w) added)) in H.
      rewrite keys_added_entries in H. apply Hidadded in H. congruence.
  - rewrite Hreg', Hreg. intros [[_ H] | H].
    + apply H. apply in_map_iff. now exists r.
    + apply Hidadded in H. congruence.
Qed.

(** ** Only online clusters have devices *)

Lemma filter_idempotent {A} (f : A -> bool) (l : list A) :
  filter f (filter f l) = filter f l.
Proof.
  rewrite filter_twice. apply filter_ext. intros x. now destruct (f x).
Qed.

Lemma online_clusters_filter (cs : list CloudClusterResponse.t) :
  online_clusters (filter CloudClusterResponse.is_online cs)
  = online_clusters cs.
Proof. unfold online_clusters. now rewrite filter_idempotent. Qed.

(** After a reconciliation the table holds the keys of the online
    clusters of the response, and no others. *)
Lemma reconcile_keys (cs : list CloudClusterResponse.t) (w : World) :
  well_formed w -> keys_agree w ->
  exists w',
    _onGetRemoteClustersFinished matchesNetworkKey cs w = Ok w' /\
    well_formed w' /\ keys_agree w' /\
    forall k, In k (Dict.keys (_remote_clusters w'))
              <-> In k (Dict.keys (online_clusters cs)).
Proof.
  intros Hwf Hka.
  destruct (reconcile_spec cs w Hwf Hka) as
    (w3 & w' & Hrun & _ & Hframe & Htab & _ & _ & _ & _ & _ & _ & _ & Hwf3
        & Hka3 & _).
  destruct (online_clusters_spec cs) as (_ & Honid & _).
  exists w'. split; [exact Hrun|].
  assert (Hinv : well_formed w' /\ keys_agree w').
  { destruct Hframe as (Htab' & Hnext' & _ & _ & Hkey' & _).
    unfold well_formed, keys_unique, refs_allocated, keys_agree.
    rewrite Htab', Hnext'. repeat split; try apply Hwf3.
    intros k r Hin. rewrite Hkey'. now apply Hka3. }
  split; [apply Hinv | split; [apply Hinv|]].
  destruct Hframe as (Htab' & _). intros k. rewrite Htab', Htab.
  unfold Dict.keys at 1. rewrite map_app, in_app_iff.
  fold (Dict.keys (added_entries (next_ref w)
          (snd (fst (findChanges (heap w) (_remote_clusters w)
                       (online_clusters cs)))))).
  rewrite keys_added_entries, findChanges_added. split.
  - intros [H | H].
    + apply in_map_iff in H. destruct H as [[k' r] [Hk Hin]]. simpl in Hk.
      subst k'. apply filter_In in Hin. simpl in Hin.
      now apply contains_In.
    + apply in_map_iff in H. destruct H as [c [<- Hc]].
      apply values_In in Hc. destruct Hc as [k Hk]. apply filter_In in Hk.
      destruct Hk as [Hin _]. destruct (Honid _ _ Hin) as (-> & _).
      now apply In_keys with c.
  - intros Hk. destruct (Dict.contains k (_remote_clusters w)) eqn:E.
    + left. apply contains_In, keys_In in E. destruct E as [r Hin].
      apply in_map_iff. exists (k, r). split; [reflexivity|].
      apply filter_In. split; [exact Hin|]. now apply contains_In.
    + right. apply keys_In in Hk. destruct Hk as [c Hin].
      apply in_map_iff. exists c. split; [now apply Honid in Hin|].
      apply In_values with k. apply filter_In. simpl. now rewrite E.
Qed.

(** C7.  The response is filtered to its online records before the diff:
    the poll gives the same result as the poll on the filtered response; a
    table entry whose key has no online record in the response, be it
    absent or reported offline, is among the removed devices and its key is
    gone afterwards; and the table ends with the keys of the online records
    only. *)
Theorem offline_clusters_count_as_absent
    (cs : list CloudClusterResponse.t) (w : World) :
  well_formed w ->
  keys_agree w ->
  exists w',
    _onGetRemoteClustersFinished matchesNetworkKey cs w = Ok w' /\
    _onGetRemoteClustersFinished matchesNetworkKey
      (filter CloudClusterResponse.is_online cs) w = Ok w' /\
    (forall k r,
       In (k, r) (_remote_clusters w) ->
       (forall c, In c cs -> CloudClusterResponse.cluster_id c = k ->
                  CloudClusterResponse.is_online c = false) ->
       In r (fst (fst (findChanges (heap w) (_remote_clusters w)
                         (online_clusters cs))))
       /\ ~ In k (Dict.keys (_remote_clusters w'))) /\
    (forall k,
       In k (Dict.keys (_remote_clusters w')) <->
       exists c, In c cs /\ CloudClusterResponse.is_online c = true
                 /\ CloudClusterResponse.cluster_id c = k).
Proof.
  intros Hwf Hka.
  destruct (reconcile_keys cs w Hwf Hka) as (w' & Hrun & _ & _ & Hkeys).
  destruct (online_clusters_spec cs) as (_ & _ & Honkeys).
  exists w'. split; [exact Hrun|]. split; [|split].
  - unfold _onGetRemoteClustersFinished in *.
    now rewrite online_clusters_filter.
  - intros k r Hin Hoff.
    assert (Hnot : ~ In k (Dict.keys (online_clusters cs))).
    { rewrite Honkeys. intros (c & Hc & Hon & Hk).
      rewrite (Hoff c Hc Hk) in Hon. discriminate. }
    split.
    + rewrite findChanges_removed. apply In_values with k.
      apply filter_In. split; [exact Hin|]. simpl.
      now apply negb_true_iff, contains_not_In.
    + now rewrite Hkeys.
  - intros k. now rewrite Hkeys, Honkeys.
Qed.

(** ** The connection resolver, case by case *)

Lemma resolver_bound (w : World) (active : GlobalStack.t) (k : string)
    (r : ref) :
  active_machine w = Some active ->
  GlobalStack.getMetaDataEntry META_CLUSTER_ID active = Some k ->
  Dict.get k (_remote_clusters w) = Some r ->
  _connectToActiveMachine matchesNetworkKey w
  = Ok (if CloudOutputDevice.isConnected (heap w r) then w
        else device_connect r w).
Proof.
  intros Ham Hstored Hget. unfold _connectToActiveMachine.
  rewrite Ham, Hstored.
  assert (Hc : Dict.contains k (_remote_clusters w) = true).
  { apply contains_In. apply get_In in Hget. now apply In_keys with r. }
  rewrite Hc, Hget. now destruct (CloudOutputDevice.isConnected (heap w r)).
Qed.

Lemma resolver_unbound (w : World) (active : GlobalStack.t) :
  active_machine w = Some active ->
  (forall k, GlobalStack.getMetaDataEntry META_CLUSTER_ID active = Some k ->
             ~ In k (Dict.keys (_remote_clusters w))) ->
  _connectToActiveMachine matchesNetworkKey w
  = _connectByNetworkKey matchesNetworkKey active w.
Proof.
  intros Ham Hstored. unfold _connectToActiveMachine. rewrite Ham.
  destruct (GlobalStack.getMetaDataEntry META_CLUSTER_ID active) as [k|];
    [|reflexivity].
  specialize (Hstored k eq_refl). apply contains_not_In in Hstored.
  now rewrite Hstored.
Qed.

Lemma find_first {A} (f : A -> bool) (before : list A) (x : A)
    (after : list A) :
  (forall y, In y before -> f y = false) ->
  f x = true ->
  find f (before ++ x :: after) = Some x.
Proof.
  induction before as [|y before IH]; simpl; intros Hb Hx.
  - now rewrite Hx.
  - rewrite (Hb y) by now left. apply IH; auto.
Qed.

Lemma find_nothing {A} (f : A -> bool) (l : list A) :
  (forall y, In y l -> f y = false) -> find f l = None.
Proof.
  induction l as [|y l IH]; simpl; intros H; [reflexivity|].
  rewrite (H y) by now left. apply IH; auto.
Qed.

(** C5.  The resolver, case by case.  It never raises.
    - No active machine: nothing happens.
    - The stored cluster identity names a device of the table: that device
      is connected unless it is connected already; the network key is not
      looked at and the metadata is not written.
    - Otherwise, with no local network key (missing or empty): nothing.
    - Otherwise the first device of the table, in table order, whose
      [matchesNetworkKey] accepts the key gets its key written as the stored
      cluster identity, and is connected.
    - Otherwise, no device matching: nothing happens. *)
Theorem connection_resolver_cases (w : World) :
  (exists w', _connectToActiveMachine matchesNetworkKey w = Ok w') /\
  (active_machine w = None ->
   _connectToActiveMachine matchesNetworkKey w = Ok w) /\
  (forall active k r,
     active_machine w = Some active ->
     GlobalStack.getMetaDataEntry META_CLUSTER_ID active = Some k ->
     Dict.get k (_remote_clusters w) = Some r ->
     _connectToActiveMachine matchesNetworkKey w
     = Ok (if CloudOutputDevice.isConnected (heap w r) then w
           else log (DeviceConnect r)
                  (set_device r (CloudOutputDevice.connect (heap w r)) w))) /\
  (forall active,
     active_machine w = Some active ->
     (forall k,
        GlobalStack.getMetaDataEntry META_CLUSTER_ID active = Some k ->
        ~ In k (Dict.keys (_remote_clusters w))) ->
     (* no local network key *)
     (GlobalStack.getMetaDataEntry "um_network_key" active = None
      \/ GlobalStack.getMetaDataEntry "um_network_key" active = Some "" ->
      _connectToActiveMachine matchesNetworkKey w = Ok w) /\
     (forall key,
        GlobalStack.getMetaDataEntry "um_network_key" active = Some key ->
        key <> "" ->
        (* first match wins *)
        (forall before r after,
           Dict.values (_remote_clusters w) = before ++ r :: after ->
           (forall r', In r' before ->
                       matchesNetworkKey (heap w r') key = false) ->
           matchesNetworkKey (heap w r) key = true ->
           exists w1 w',
             _connectToActiveMachine matchesNetworkKey w = Ok w' /\
             (* the binding is written ... *)
             active_machine w1
             = Some (GlobalStack.setMetaDataEntry META_CLUSTER_ID
                       (CloudOutputDevice.key (heap w r)) active) /\
             heap w1 = heap w /\
             trace w1
             = trace w ++ [SetMetaDataEntry META_CLUSTER_ID
                             (CloudOutputDevice.key (heap w r))] /\
             (* ... then the device is connected *)
             w' = log (DeviceConnect r)
                    (set_device r (CloudOutputDevice.connect (heap w r)) w1) /\
             _remote_clusters w' = _remote_clusters w) /\
        (* no match *)
        ((forall r, In r (Dict.values (_remote_clusters w)) ->
                    matchesNetworkKey (heap w r) key = false) ->
         _connectToActiveMachine matchesNetworkKey w = Ok w))).
Proof.
  split; [|split; [|split]].
  - destruct (connectToActiveMachine_frame w) as (w' & Hrun & _).
    now exists w'.
  - intros Ham. unfold _connectToActiveMachine. now rewrite Ham.
  - intros active k r. apply resolver_bound.
  - intros active Ham Hstored.
    rewrite (resolver_unbound w active Ham Hstored).
    unfold _connectByNetworkKey. split.
    + intros [-> | ->]; reflexivity.
    + intros key -> Hkey. apply String.eqb_neq in Hkey. rewrite Hkey. split.
      * intros before r after Hsplit Hbefore Hr.
        rewrite Hsplit, find_first by assumption.
        exists (setMetaDataEntry META_CLUSTER_ID
                  (CloudOutputDevice.key (heap w r)) w).
        eexists. split; [reflexivity|]. simpl.
        rewrite Ham. repeat split.
      * intros Hnone. now rewrite find_nothing.
Qed.

(** C6.  While the stored cluster identity of the active machine is a key
    of the table, a resolution leaves the metadata of the machine as it is
    (it calls nothing but [connect]); and so does a whole poll whose
    response lists the stored identity among its online clusters, whatever
    other devices the poll brings.  The metadata is therefore rewritten
    only by a resolution that finds the stored identity missing from the
    table. *)
Theorem sticky_binding (w : World) (active : GlobalStack.t) (k : string)
    (cs : list CloudClusterResponse.t) :
  active_machine w = Some active ->
  GlobalStack.getMetaDataEntry META_CLUSTER_ID active = Some k ->
  (In k (Dict.keys (_remote_clusters w)) ->
   exists w' evs,
     _connectToActiveMachine matchesNetworkKey w = Ok w' /\
     active_machine w' = Some active /\
     trace w' = trace w ++ evs /\
     forall e, In e evs -> exists r, e = DeviceConnect r) /\
  (well_formed w -> keys_agree w ->
   In k (Dict.keys (online_clusters cs)) ->
   exists w',
     _onGetRemoteClustersFinished matchesNetworkKey cs w = Ok w' /\
     active_machine w' = Some active) /\
  (forall w',
     _connectToActiveMachine matchesNetworkKey w = Ok w' ->
     active_machine w' <> Some active ->
     ~ In k (Dict.keys (_remote_clusters w))).
Proof.
  intros Ham Hstored.
  assert (Hbound : forall w0,
            active_machine w0 = Some active ->
            In k (Dict.keys (_remote_clusters w0)) ->
            exists w' evs,
              _connectToActiveMachine matchesNetworkKey w0 = Ok w' /\
              active_machine w' = Some active /\
              trace w' = trace w0 ++ evs /\
              forall e, In e evs -> exists r, e = DeviceConnect r).
  { intros w0 Ham0 Hin. apply contains_In, contains_get in Hin.
    destruct Hin as [r Hget].
    rewrite (resolver_bound w0 active k r Ham0 Hstored Hget).
    destruct (CloudOutputDevice.isConnected (heap w0 r)).
    - exists w0, []. rewrite app_nil_r. repeat split; auto. intros e [].
    - eexists. exists [DeviceConnect r]. split; [reflexivity|]. simpl.
      repeat split; auto. intros e [<- | []]. now exists r. }
  split; [|split].
  - now apply Hbound.
  - intros Hwf Hka Hon.
    destruct (reconcile_spec cs w Hwf Hka) as
      (w3 & w' & Hrun & Hres & _ & _ & _ & _ & _ & _ & _ & Ham3 & _).
    destruct (reconcile_keys cs w Hwf Hka) as (w'' & Hrun' & _ & _ & Hkeys).
    rewrite Hrun in Hrun'. injection Hrun' as <-.
    exists w'. split; [exact Hrun|].
    destruct (connectToActiveMachine_frame w3) as (w4 & Hres4 & Hframe).
    rewrite Hres in Hres4. injection Hres4 as <-.
    destruct Hframe as (Htab & _).
    destruct (Hbound w3) as (w5 & evs & Hres5 & Ham5 & _).
    + congruence.
    + rewrite <- Htab. now apply Hkeys.
    + rewrite Hres in Hres5. injection Hres5 as <-. exact Ham5.
  - intros w' Hres Hchanged Hin.
    destruct (Hbound w Ham Hin) as (w'' & evs & Hres' & Ham' & _).
    rewrite Hres in Hres'. injection Hres' as <-. contradiction.
Qed.

(** ** The running flag *)

Lemma stop_without_flag (w : World) :
  _running w = false -> stop matchesNetworkKey w = Ok w.
Proof. intros H. unfold stop. now rewrite H. Qed.

Lemma start_with_flag (w : World) :
  _running w = true -> start matchesNetworkKey w = Ok w.
Proof. intros H. unfold start. now rewrite H. Qed.

(** Had the flag been set, [stop] would unsubscribe, disarm the timer and
    drain the table. *)
Lemma stop_with_flag (w : World) :
  well_formed w -> keys_agree w ->
  _running w = true ->
  exists w',
    stop matchesNetworkKey w = Ok w' /\
    _remote_clusters w' = [] /\
    QTimer.isActive (_update_timer w') = false /\
    trace w'
    = trace w
      ++ [SignalDisconnect loginStateChanged on_onLoginStateChanged;
          SignalDisconnect globalContainerStackChanged
                           on_connectToActiveMachine;
          SignalDisconnect timeout on_getRemoteClusters]
      ++ (if QTimer.isActive (_update_timer w) then [TimerStop] else [])
      ++ flat_map (removal_events (heap w))
                  (Dict.values (_remote_clusters w)).
Proof.
  intros Hwf Hka Hflag. unfold stop. rewrite Hflag. cbn [negb].
  unfold and_then, pure.
  destruct (logout_spec
              (log (SignalDisconnect timeout on_getRemoteClusters)
                 (log (SignalDisconnect globalContainerStackChanged
                                        on_connectToActiveMachine)
                    (log (SignalDisconnect loginStateChanged
                                           on_onLoginStateChanged) w))))
    as (w0 & w' & Hrun & _ & _ & _ & Htr0 & _ & _ & Htab & Hoff & Htr & _);
    [exact Hwf | exact Hka |].
  exists w'. split; [exact Hrun|]. split; [exact Htab|].
  split; [exact Hoff|]. rewrite Htr, Htr0. simpl.
  rewrite <- !app_assoc. reflexivity.
Qed.

Lemma stop_keeps_well_formed (w : World) :
  well_formed w -> keys_agree w ->
  exists w',
    stop matchesNetworkKey w = Ok w' /\ well_formed w' /\ keys_agree w'.
Proof.
  intros Hwf Hka. destruct (_running w) eqn:Hflag.
  - destruct (stop_with_flag w Hwf Hka Hflag) as (w' & Hstop & Htab & _).
    exists w'. split; [exact Hstop|].
    unfold well_formed, keys_unique, refs_allocated, keys_agree.
    rewrite Htab. simpl. repeat split; try constructor; intros k r [].
  - exists w. split; [now apply stop_without_flag | now split].
Qed.

(** ** A response after [stop] *)

Lemma and_then_ignores_flag (p q : Proc) :
  ignores_flag p -> ignores_flag q -> ignores_flag (p ;; q).
Proof.
  intros Hp Hq b w. unfold and_then. rewrite Hp.
  destruct (p w) as [w'|e]; simpl; [apply Hq | reflexivity].
Qed.

Lemma for_each_ignores_flag {A} (body : A -> Proc) (l : list A) :
  (forall x, ignores_flag (body x)) -> ignores_flag (for_each l body).
Proof.
  intros H. induction l as [|x l IH]; simpl.
  - intros b w. reflexivity.
  - apply and_then_ignores_flag; auto.
Qed.

Lemma remove_output_device_ignores_flag (r : ref) :
  ignores_flag (remove_output_device r).
Proof.
  intros b w. unfold remove_output_device. simpl.
  destruct (CloudOutputDevice.isConnected (heap w r)); simpl;
    destruct (Dict.del _ _); reflexivity.
Qed.

Lemma resolver_ignores_flag :
  ignores_flag (_connectToActiveMachine matchesNetworkKey).
Proof.
  intros b w. unfold _connectToActiveMachine, _connectByNetworkKey. simpl.
  destruct (active_machine w) as [active|]; [|reflexivity].
  destruct (GlobalStack.getMetaDataEntry META_CLUSTER_ID active) as [k|].
  - destruct (Dict.contains k (_remote_clusters w)).
    + destruct (Dict.get k (_remote_clusters w)) as [r|]; [|reflexivity].
      now destruct (CloudOutputDevice.isConnected (heap w r)).
    + destruct (GlobalStack.getMetaDataEntry "um_network_key" active)
        as [nk|]; [|reflexivity].
      destruct (String.eqb nk ""); [reflexivity|].
      now destruct (find _ _).
  - destruct (GlobalStack.getMetaDataEntry "um_network_key" active)
      as [nk|]; [|reflexivity].
    destruct (String.eqb nk ""); [reflexivity|].
    now destruct (find _ _).
Qed.

Lemma reconcile_ignores_flag (cs : list CloudClusterResponse.t) :
  ignores_flag (_onGetRemoteClustersFinished matchesNetworkKey cs).
Proof.
  intros b w. unfold _onGetRemoteClustersFinished.
  change (heap (set_running b w)) with (heap w).
  change (_remote_clusters (set_running b w)) with (_remote_clusters w).
  destruct (findChanges _ _ _) as [[removed added] updates].
  apply and_then_ignores_flag;
    [apply for_each_ignores_flag, remove_output_device_ignores_flag|].
  apply and_then_ignores_flag;
    [apply for_each_ignores_flag; intros c b' w'; reflexivity|].
  apply and_then_ignores_flag;
    [apply for_each_ignores_flag; intros c b' w'; reflexivity|].
  apply resolver_ignores_flag.
Qed.

(** C2, as the code has it.  A poll response that arrives after [stop] is
    applied like any other: [_onGetRemoteClustersFinished] does not read
    the running flag, finishes without an exception and leaves the table
    with exactly the online clusters of the response. *)
Theorem late_response_is_applied
    (cs : list CloudClusterResponse.t) (w : World) :
  well_formed w ->
  keys_agree w ->
  exists w1 w2,
    stop matchesNetworkKey w = Ok w1 /\
    _onGetRemoteClustersFinished matchesNetworkKey cs w1 = Ok w2 /\
    _running w2 = _running w1 /\
    (forall b,
       _onGetRemoteClustersFinished matchesNetworkKey cs (set_running b w1)
       = Ok (set_running b w2)) /\
    forall k,
      In k (Dict.keys (_remote_clusters w2)) <->
      exists c, In c cs /\ CloudClusterResponse.is_online c = true
                /\ CloudClusterResponse.cluster_id c = k.
Proof.
  intros Hwf Hka.
  destruct (stop_keeps_well_formed w Hwf Hka) as (w1 & Hstop & Hwf1 & Hka1).
  destruct (reconcile_keys cs w1 Hwf1 Hka1) as (w2 & Hrun & _ & _ & Hkeys).
  destruct (reconcile_spec cs w1 Hwf1 Hka1) as
    (w3 & w2' & Hrun' & _ & Hframe & _ & _ & _ & _ & _ & Hsame & _).
  rewrite Hrun in Hrun'. injection Hrun' as <-.
  destruct (online_clusters_spec cs) as (_ & _ & Honkeys).
  exists w1, w2. split; [exact Hstop|]. split; [exact Hrun|].
  split; [|split].
  - destruct Hframe as (_ & _ & _ & (_ & Hr' & _) & _), Hsame as (_ & Hr & _).
    congruence.
  - intros b. now rewrite reconcile_ignores_flag, Hrun.
  - intros k. now rewrite Hkeys, Honkeys.
Qed.

(** C3, as the code has it.  The constructor makes a 50-second repeating
    timer, not armed.  [start] on a manager whose running flag is set does
    nothing.  Otherwise it connects the three signals, then evaluates the
    login state with the current login status: logged in, the timer is
    armed unless it is active already and a poll is requested; logged out,
    the timer is disarmed and the table drained.  Either way the timer ends
    armed exactly when the account is logged in, interval and repetition
    untouched. *)
Theorem start_connects_then_evaluates_login
    (w : World) (logged_in : bool) (machine : option GlobalStack.t) :
  well_formed w ->
  keys_agree w ->
  _update_timer (__init__ logged_in machine)
  = QTimer.mk (50 * 1000) false false /\
  if _running w then start matchesNetworkKey w = Ok w
  else
    exists w0 w',
      start matchesNetworkKey w = Ok w' /\
      trace w0
      = trace w
        ++ [SignalConnect loginStateChanged on_onLoginStateChanged;
            SignalConnect globalContainerStackChanged
                          on_connectToActiveMachine;
            SignalConnect timeout on_getRemoteClusters] /\
      _onLoginStateChanged matchesNetworkKey (isLoggedIn w) w0 = Ok w' /\
      QTimer.interval (_update_timer w') = QTimer.interval (_update_timer w) /\
      QTimer.singleShot (_update_timer w')
      = QTimer.singleShot (_update_timer w) /\
      QTimer.isActive (_update_timer w') = isLoggedIn w /\
      if isLoggedIn w
      then
        trace w'
        = trace w0
          ++ (if QTimer.isActive (_update_timer w) then [] else [TimerStart])
          ++ [ApiGetClusters]
        /\ _remote_clusters w' = _remote_clusters w
      else
        trace w'
        = trace w0
          ++ (if QTimer.isActive (_update_timer w) then [TimerStop] else [])
          ++ flat_map (removal_events (heap w))
                      (Dict.values (_remote_clusters w))
        /\ _remote_clusters w' = [].
Proof.
  intros Hwf Hka. split; [reflexivity|].
  unfold start. destruct (_running w); [reflexivity|].
  unfold and_then, pure. cbv beta.
  set (w0 := log (SignalConnect timeout on_getRemoteClusters)
               (log (SignalConnect globalContainerStackChanged
                                   on_connectToActiveMachine)
                  (log (SignalConnect loginStateChanged
                                      on_onLoginStateChanged) w))).
  change (isLoggedIn w0) with (isLoggedIn w).
  assert (Htr0 : trace w0
                 = trace w
                   ++ [SignalConnect loginStateChanged on_onLoginStateChanged;
                       SignalConnect globalContainerStackChanged
                                     on_connectToActiveMachine;
                       SignalConnect timeout on_getRemoteClusters]).
  { unfold w0. simpl. rewrite <- !app_assoc. reflexivity. }
  destruct (isLoggedIn w) eqn:Hlogin.
  - exists w0. eexists. split; [reflexivity|]. split; [exact Htr0|].
    split; [reflexivity|].
    unfold _onLoginStateChanged, and_then, pure, _getRemoteClusters.
    change (_update_timer w0) with (_update_timer w).
    destruct (QTimer.isActive (_update_timer w)) eqn:Hact; simpl;
      rewrite <- ?app_assoc; repeat split; auto.
  - destruct (logout_spec w0) as
      (w1 & w' & Hrun & _ & _ & _ & Htr1 & _ & _ & Htab & Hoff & Htr & Hint
          & Hshot); [exact Hwf | exact Hka |].
    exists w0, w'. split; [exact Hrun|]. split; [exact Htr0|].
    split; [exact Hrun|]. split; [exact Hint|]. split; [exact Hshot|].
    split; [exact Hoff|]. split; [|exact Htab].
    rewrite Htr, Htr1, <- app_assoc. reflexivity.
Qed.

(** ** The entry points *)

Section EntryPoints.

Variable i18nc : string -> string -> string.

Lemma run_preserves (c : Call) (w : World) :
  well_formed w -> synchronised w ->
  exists w',
    run matchesNetworkKey i18nc c w = Ok w'
    /\ well_formed w' /\ synchronised w' /\ _running w' = _running w.
Proof.
  intros Hwf Hsync.
  assert (Hlogin : forall b w0,
            well_formed w0 -> synchronised w0 -> _running w0 = _running w ->
            exists w',
              _onLoginStateChanged matchesNetworkKey b w0 = Ok w'
              /\ well_formed w' /\ synchronised w'
              /\ _running w' = _running w).
  { intros b w0 Hwf0 Hsync0 Hflag.
    destruct (onLoginStateChanged_preserves b w0 Hwf0 Hsync0)
      as (w' & H1 & H2 & H3 & H4).
    exists w'. rewrite <- Hflag. auto. }
  destruct c as [| |b| |cs| |errors]; simpl.
  - unfold start. destruct (_running w) eqn:E; [now exists w|].
    unfold and_then, pure. cbv beta.
    apply Hlogin; [exact Hwf | exact Hsync | exact E].
  - unfold stop. destruct (_running w) eqn:E; cbn [negb]; [|now exists w].
    unfold and_then, pure. cbv beta.
    apply Hlogin; [exact Hwf | exact Hsync | exact E].
  - now apply Hlogin.
  - eexists. split; [reflexivity|]. repeat split;
      solve [apply Hwf | apply Hsync].
  - now apply reconcile_preserves.
  - destruct (connectToActiveMachine_frame w) as (w' & Hrun & Hframe).
    exists w'. split; [exact Hrun|].
    destruct (resolver_frame_invariant w w' Hframe Hwf Hsync) as [H1 H2].
    split; [exact H1 | split; [exact H2|]]. apply Hframe.
  - eexists. split; [reflexivity|]. repeat split;
      solve [apply Hwf | apply Hsync].
Qed.

Lemma init_well_formed (logged_in : bool) (machine : option GlobalStack.t) :
  well_formed (__init__ logged_in machine)
  /\ synchronised (__init__ logged_in machine).
Proof.
  unfold well_formed, synchronised, keys_unique, refs_allocated,
    registry_agrees, keys_agree. simpl.
  repeat split; try constructor; tauto.
Qed.

Lemma run_all_preserves (cs : list Call) :
  forall w,
    well_formed w -> synchronised w ->
    exists w',
      run_all matchesNetworkKey i18nc cs w = Ok w'
      /\ well_formed w' /\ synchronised w' /\ _running w' = _running w.
Proof.
  induction cs as [|c cs IH]; intros w Hwf Hsync; simpl.
  - now exists w.
  - destruct (run_preserves c w Hwf Hsync)
      as (w1 & Hrun & Hwf1 & Hsync1 & Hflag).
    unfold and_then. rewrite Hrun.
    destruct (IH w1 Hwf1 Hsync1) as (w' & Hrun' & Hwf' & Hsync' & Hflag').
    exists w'. repeat split; try assumption; try apply Hwf';
      try apply Hsync'. congruence.
Qed.

(** C10.  Every entry point of the manager, run on a world in which the
    registry holds exactly the keys of the table and every table entry maps
    its key to a device with that key, finishes without an exception in a
    world where both hold again.  (Well-formedness is what Python gives for
    free: one entry per dictionary key, references to constructed
    objects.) *)
Theorem table_registry_synchrony (c : Call) (w : World) :
  well_formed w ->
  registry_agrees w ->
  keys_agree w ->
  exists w',
    run matchesNetworkKey i18nc c w = Ok w'
    /\ well_formed w' /\ registry_agrees w' /\ keys_agree w'.
Proof.
  intros Hwf Hra Hka.
  destruct (run_preserves c w Hwf (conj Hra Hka))
    as (w' & Hrun & Hwf' & (Hra' & Hka') & _).
  exists w'. auto.
Qed.

(** No entry point assigns [_running]: from a fresh manager the flag stays
    [False] whatever is called, and [stop] returns at its guard. *)
Lemma running_flag_never_set (calls : list Call) (logged_in : bool)
    (machine : option GlobalStack.t) (w : World) :
  run_all matchesNetworkKey i18nc calls (__init__ logged_in machine) = Ok w ->
  _running w = false /\ stop matchesNetworkKey w = Ok w.
Proof.
  intros Hrun.
  destruct (init_well_formed logged_in machine) as [Hwf Hsync].
  destruct (run_all_preserves calls _ Hwf Hsync) as (w' & Hrun' & _ & _ & Hf).
  rewrite Hrun in Hrun'. injection Hrun' as <-. simpl in Hf.
  split; [exact Hf | now apply stop_without_flag].
Qed.

(** ** API errors *)

(** C4.  A failed poll leaves table, devices and registry as they are and
    shows one message, whose text is the titles of the errors in order,
    joined by [". "]. *)
Theorem api_error_shows_one_message
    (errors : list CloudErrorObject.t) (w : World) :
  exists w' message,
    _onApiError i18nc errors w = Ok w' /\
    _remote_clusters w' = _remote_clusters w /\
    heap w' = heap w /\
    output_devices w' = output_devices w /\
    trace w' = trace w ++ [MessageShow message] /\
    Message.text message
    = String.concat ". " (map CloudErrorObject.title errors) /\
    _onApiError i18nc
      [CloudErrorObject.mk "timeout"; CloudErrorObject.mk "auth expired"] w
    = Ok (log (MessageShow
                 (Message.mk "timeout. auth expired"
                    (i18nc "@info:title" "Error") 10 true)) w).
Proof.
  eexists. eexists. split; [reflexivity|]. simpl. repeat split.
Qed.

End EntryPoints.

End Reconciliation.

(** * Concrete runs *)

Ltac table_entries H :=
  vm_compute in H;
  repeat (destruct H as [H | H];
          [injection H as <- <-; vm_compute; try reflexivity; try lia|]);
  try contradiction.

Ltac concrete_keys_unique :=
  vm_compute;
  repeat (constructor; [simpl; intuition discriminate|]); constructor.

Ltac concrete_entries :=
  let H := fresh "Hentry" in intros ? ? H; table_entries H.

Ltac concrete_well_formed :=
  split; [concrete_keys_unique | concrete_entries].

Ltac concrete_keys_agree := concrete_entries.

Ltac concrete_registry_agrees := intros ?; vm_compute; tauto.

(** C1.  A manager is started while logged in and a poll reports the
    clusters A and B.  [stop] then returns at its guard, because nothing
    ever assigned [_running]: both devices stay in the table and in the
    registry, B stays connected, the timer stays armed, no signal is
    disconnected and no device is closed. *)
Theorem stop_after_start_leaves_devices :
  started_world = Ok world_AB /\
  _running world_AB = false /\
  Dict.keys (_remote_clusters world_AB) = ["A"; "B"] /\
  stop host_name_prefix world_AB = Ok world_AB /\
  output_devices world_AB = ["A"; "B"] /\
  CloudOutputDevice.isConnected (heap world_AB 1) = true /\
  QTimer.isActive (_update_timer world_AB) = true /\
  filter is_removal_event (trace world_AB) = [].
Proof. vm_compute. repeat split. Qed.

(** Counterexample to C2: the response to the poll requested by [start]
    arrives after [stop] and fills the table.  The same happens from a
    world whose flag is set, where [stop] does drain the table. *)
Lemma late_response_changes_table :
  run_all host_name_prefix untranslated [call_start; call_stop]
    (__init__ true None) = Ok world_stopped /\
  trace world_stopped
  = [SignalConnect loginStateChanged on_onLoginStateChanged;
     SignalConnect globalContainerStackChanged on_connectToActiveMachine;
     SignalConnect timeout on_getRemoteClusters;
     TimerStart; ApiGetClusters] /\
  _remote_clusters world_stopped = [] /\
  _onGetRemoteClustersFinished host_name_prefix [cluster_A] world_stopped
  = Ok world_late /\
  Dict.keys (_remote_clusters world_late) = ["A"] /\
  output_devices world_late = ["A"] /\
  stop host_name_prefix world_AB_flagged = Ok world_drained /\
  _remote_clusters world_drained = [] /\
  Dict.keys
    (_remote_clusters
       (world_of
          (_onGetRemoteClustersFinished host_name_prefix [cluster_A]
             world_drained)
          world_drained))
  = ["A"].
Proof. vm_compute. repeat split. Qed.

(** Counterexample to C3: started while logged out, a manager that is not
    running connects its signals and leaves the timer disarmed. *)
Lemma start_logged_out_leaves_timer_disarmed :
  _running (__init__ false None) = false /\
  start host_name_prefix (__init__ false None) = Ok world_logged_out /\
  QTimer.isActive (_update_timer world_logged_out) = false /\
  trace world_logged_out
  = [SignalConnect loginStateChanged on_onLoginStateChanged;
     SignalConnect globalContainerStackChanged on_connectToActiveMachine;
     SignalConnect timeout on_getRemoteClusters].
Proof. vm_compute. repeat split. Qed.

(** ** The theorems at work on the sample worlds *)

Lemma late_response_is_applied_witness :
  exists w1 w2,
    stop host_name_prefix world_AB = Ok w1 /\
    _onGetRemoteClustersFinished host_name_prefix [cluster_A] w1 = Ok w2 /\
    (In "A" (Dict.keys (_remote_clusters w2))
     <-> exists c, In c [cluster_A]
                   /\ CloudClusterResponse.is_online c = true
                   /\ CloudClusterResponse.cluster_id c = "A").
Proof.
  destruct (late_response_is_applied host_name_prefix [cluster_A] world_AB)
    as (w1 & w2 & H1 & H2 & _ & _ & H4).
  - concrete_well_formed.
  - concrete_keys_agree.
  - exists w1, w2. split; [exact H1|]. split; [exact H2|]. apply H4.
Defined.

Lemma start_connects_then_evaluates_login_witness :
  exists w',
    start host_name_prefix (__init__ true (Some machine_h3)) = Ok w' /\
    QTimer.isActive (_update_timer w') = true /\
    QTimer.interval (_update_timer w') = 50000%Z.
Proof.
  destruct (start_connects_then_evaluates_login host_name_prefix
              (__init__ true (Some machine_h3)) true (Some machine_h3))
    as [_ H].
  - concrete_well_formed.
  - concrete_keys_agree.
  - simpl in H. destruct H as (w0 & w' & H1 & _ & _ & H4 & _ & H6 & _).
    exists w'. split; [exact H1|]. split; [exact H6 | exact H4].
Defined.

Lemma connection_resolver_cases_witness :
  exists w1 w',
    _connectToActiveMachine host_name_prefix world_AB_unbound = Ok w' /\
    active_machine w1
    = Some (GlobalStack.setMetaDataEntry META_CLUSTER_ID "B" machine_h3) /\
    w' = log (DeviceConnect 1)
           (set_device 1
              (CloudOutputDevice.connect (heap world_AB_unbound 1)) w1).
Proof.
  destruct (connection_resolver_cases host_name_prefix world_AB_unbound)
    as (_ & _ & _ & H).
  destruct (H machine_h3) as [_ Hkey].
  - vm_compute. reflexivity.
  - intros k Hk. vm_compute in Hk. discriminate.
  - destruct (Hkey "h3.local") as [Hfirst _].
    + vm_compute. reflexivity.
    + discriminate.
    + destruct (Hfirst [0] 1 []) as (w1 & w' & H1 & H2 & _ & _ & H5 & _).
      * vm_compute. reflexivity.
      * intros r' [<- | []]. vm_compute. reflexivity.
      * vm_compute. reflexivity.
      * exists w1, w'. split; [exact H1|]. split; [exact H2 | exact H5].
Defined.

Lemma sticky_binding_witness :
  exists w',
    _onGetRemoteClustersFinished host_name_prefix
      [cluster_D; cluster_A; cluster_B] world_AB = Ok w' /\
    active_machine w' = Some machine_h3_bound.
Proof.
  destruct (sticky_binding host_name_prefix world_AB machine_h3_bound "B"
              [cluster_D; cluster_A; cluster_B]) as (_ & H & _).
  - vm_compute. reflexivity.
  - vm_compute. reflexivity.
  - apply H.
    + concrete_well_formed.
    + concrete_keys_agree.
    + vm_compute. auto.
Defined.

Lemma offline_clusters_count_as_absent_witness :
  exists w',
    _onGetRemoteClustersFinished host_name_prefix
      [cluster_A; cluster_B_offline] world_AB = Ok w' /\
    ~ In "B" (Dict.keys (_remote_clusters w')).
Proof.
  destruct (offline_clusters_count_as_absent host_name_prefix
              [cluster_A; cluster_B_offline] world_AB)
    as (w' & H1 & _ & H3 & _).
  - concrete_well_formed.
  - concrete_keys_agree.
  - exists w'. split; [exact H1|]. apply (H3 "B" 1).
    + vm_compute. auto.
    + intros c [<- | [<- | []]]; [discriminate | reflexivity].
Defined.

Lemma diff_applied_removed_added_updated_witness :
  exists w' resolver_events,
    _onGetRemoteClustersFinished host_name_prefix
      [cluster_A_renamed; cluster_B_offline; cluster_C] world_AB = Ok w' /\
    trace w'
    = trace world_AB
      ++ [DeviceDisconnect 1; DeviceClose 1; RemoveOutputDevice "B";
          DeviceCreate 2 "C" "h5"; AddOutputDevice 2;
          DeviceSetHostName 0 "h2"]
      ++ resolver_events.
Proof.
  destruct (diff_applied_removed_added_updated host_name_prefix
              [cluster_A_renamed; cluster_B_offline; cluster_C] world_AB)
    as (w' & evs & H1 & H2 & _).
  - concrete_well_formed.
  - concrete_keys_agree.
  - exists w', evs. split; [exact H1 | exact H2].
Defined.

Lemma logout_disarms_and_drains_witness :
  exists w',
    _onLoginStateChanged host_name_prefix false world_AB = Ok w' /\
    _remote_clusters w' = [] /\
    QTimer.isActive (_update_timer w') = false.
Proof.
  destruct (logout_disarms_and_drains host_name_prefix world_AB)
    as (w0 & w' & H1 & _ & _ & _ & _ & _ & _ & H8 & H9 & _).
  - concrete_well_formed.
  - concrete_keys_agree.
  - exists w'. split; [exact H1|]. split; [exact H8 | exact H9].
Defined.

Lemma table_registry_synchrony_witness :
  exists w',
    run host_name_prefix untranslated
      (call_onGetRemoteClustersFinished
         [cluster_A_renamed; cluster_B_offline; cluster_C]) world_AB = Ok w' /\
    well_formed w' /\ registry_agrees w' /\ keys_agree w'.
Proof.
  apply (table_registry_synchrony host_name_prefix untranslated
           (call_onGetRemoteClustersFinished
              [cluster_A_renamed; cluster_B_offline; cluster_C]) world_AB).
  - concrete_well_formed.
  - concrete_registry_agrees.
  - concrete_keys_agree.
Defined.

(** * Further properties of the manager *)

(** ** Lookups in a dictionary after an assignment *)

Lemma get_set_same {V} (k : string) (v : V) (d : Dict.t V) :
  Dict.get k (Dict.set k v d) = Some v.
Proof.
  unfold Dict.set. destruct (Dict.contains k d) eqn:E.
  - apply contains_In in E. induction d as [|[k' v'] d IH]; simpl in *.
    + contradiction.
    + destruct (String.eqb k' k) eqn:Ek; simpl.
      * now rewrite String.eqb_refl.
      * rewrite Ek. apply IH. destruct E as [E | E]; [|exact E].
        apply String.eqb_neq in Ek. contradiction.
  - apply contains_not_In in E. induction d as [|[k' v'] d IH]; simpl in *.
    + now rewrite String.eqb_refl.
    + destruct (String.eqb k' k) eqn:Ek.
      * apply String.eqb_eq in Ek. tauto.
      * apply IH. tauto.
Qed.

Lemma get_set_other {V} (k k' : string) (v : V) (d : Dict.t V) :
  k' <> k -> Dict.get k' (Dict.set k v d) = Dict.get k' d.
Proof.
  intros Hne. unfold Dict.set. destruct (Dict.contains k d).
  - induction d as [|[k0 v0] d IH]; simpl; [reflexivity|].
    destruct (String.eqb k0 k) eqn:Ek; simpl.
    + apply String.eqb_eq in Ek. subst k0.
      assert (E : String.eqb k k' = false)
        by (apply String.eqb_neq; congruence).
      now rewrite E.
    + now rewrite IH.
  - induction d as [|[k0 v0] d IH]; simpl.
    + assert (E : String.eqb k k' = false)
        by (apply String.eqb_neq; congruence).
      now rewrite E.
    + now rewrite IH.
Qed.

Lemma find_append {A} (f : A -> bool) (l1 l2 : list A) :
  find f (l1 ++ l2)
  = match find f l1 with
    | Some x => Some x
    | None => find f l2
    end.
Proof.
  induction l1 as [|x l1 IH]; simpl; [reflexivity|].
  now destruct (f x).
Qed.

Lemma get_fold_set (l : list CloudClusterResponse.t) (k : string) :
  forall d : Dict.t CloudClusterResponse.t,
    Dict.get k
      (fold_left (fun d c => Dict.set (CloudClusterResponse.cluster_id c) c d)
                 l d)
    = match find (fun c => String.eqb (CloudClusterResponse.cluster_id c) k)
                 (rev l) with
      | Some c => Some c
      | None => Dict.get k d
      end.
Proof.
  induction l as [|c l IH]; intros d; simpl; [reflexivity|].
  rewrite IH, find_append. destruct (find _ (rev l)) as [c'|]; [reflexivity|].
  simpl. destruct (String.eqb (CloudClusterResponse.cluster_id c) k) eqn:E.
  - apply String.eqb_eq in E. subst k. apply get_set_same.
  - apply String.eqb_neq in E. apply get_set_other. congruence.
Qed.

Lemma get_online_clusters (cs : list CloudClusterResponse.t) (k : string) :
  Dict.get k (online_clusters cs) = last_online k cs.
Proof.
  unfold online_clusters, last_online. rewrite get_fold_set.
  now destruct (find _ _).
Qed.

(** X10.  When a response lists a cluster id more than once, the
    dictionary of online clusters holds the last online record with that
    id; offline records never enter it. *)
Theorem online_clusters_last_record_wins
    (cs : list CloudClusterResponse.t) (k : string) :
  Dict.get k (online_clusters cs) = last_online k cs /\
  forall c, Dict.get k (online_clusters cs) = Some c ->
            In c cs /\ CloudClusterResponse.is_online c = true
            /\ CloudClusterResponse.cluster_id c = k.
Proof.
  pose proof (get_online_clusters cs k) as Hget.
  split; [exact Hget|]. intros c Hc. rewrite Hget in Hc.
  unfold last_online in Hc. apply find_some in Hc. destruct Hc as [Hin Hk].
  apply in_rev, filter_In in Hin. apply String.eqb_eq in Hk. tauto.
Qed.

(** ** More on the connection resolver *)

Lemma unique_entry {V} (k : string) (v v' : V) (d : Dict.t V) :
  NoDup (Dict.keys d) -> In (k, v) d -> In (k, v') d -> v = v'.
Proof.
  intros Hnd H1 H2. apply (In_get k v d Hnd) in H1.
  apply (In_get k v' d Hnd) in H2. congruence.
Qed.

Lemma stored_identity_after_binding (k : string) (active : GlobalStack.t) :
  GlobalStack.getMetaDataEntry META_CLUSTER_ID
    (GlobalStack.setMetaDataEntry META_CLUSTER_ID k active) = Some k.
Proof. apply get_set_same. Qed.

Section Resolution.

Variable matchesNetworkKey : CloudOutputDevice.t -> string -> bool.

(** The four ways a resolution can go. *)
Lemma resolver_outcome (w : World) :
  (active_machine w = None
   /\ _connectToActiveMachine matchesNetworkKey w = Ok w)
  \/ (exists active k r,
        active_machine w = Some active
        /\ GlobalStack.getMetaDataEntry META_CLUSTER_ID active = Some k
        /\ Dict.get k (_remote_clusters w) = Some r
        /\ _connectToActiveMachine matchesNetworkKey w
           = Ok (if CloudOutputDevice.isConnected (heap w r) then w
                 else device_connect r w))
  \/ (exists active,
        active_machine w = Some active
        /\ (forall k,
              GlobalStack.getMetaDataEntry META_CLUSTER_ID active = Some k ->
              ~ In k (Dict.keys (_remote_clusters w)))
        /\ _connectToActiveMachine matchesNetworkKey w = Ok w)
  \/ (exists active r,
        active_machine w = Some active
        /\ (forall k,
              GlobalStack.getMetaDataEntry META_CLUSTER_ID active = Some k ->
              ~ In k (Dict.keys (_remote_clusters w)))
        /\ In r (Dict.values (_remote_clusters w))
        /\ _connectToActiveMachine matchesNetworkKey w
           = Ok (device_connect r
                   (setMetaDataEntry META_CLUSTER_ID
                      (CloudOutputDevice.key (heap w r)) w))).
Proof.
  destruct (active_machine w) as [active|] eqn:Ham.
  2: { left. split; [reflexivity|]. unfold _connectToActiveMachine.
       now rewrite Ham. }
  right.
  assert (Hcases :
    (exists k r,
       GlobalStack.getMetaDataEntry META_CLUSTER_ID active = Some k
       /\ Dict.get k (_remote_clusters w) = Some r)
    \/ (forall k,
          GlobalStack.getMetaDataEntry META_CLUSTER_ID active = Some k ->
          ~ In k (Dict.keys (_remote_clusters w)))).
  { destruct (GlobalStack.getMetaDataEntry META_CLUSTER_ID active) as [k|];
      [|right; discriminate].
    destruct (Dict.get k (_remote_clusters w)) as [r|] eqn:Hget.
    - left. now exists k, r.
    - right. intros k' [= <-]. now apply get_None. }
  destruct Hcases as [(k & r & Hstored & Hget) | Habsent].
  - left. exists active, k, r. repeat split; try assumption.
    now apply resolver_bound with active k.
  - right. rewrite (resolver_unbound matchesNetworkKey w active Ham Habsent).
    unfold _connectByNetworkKey.
    destruct (GlobalStack.getMetaDataEntry "um_network_key" active) as [nk|];
      [|left; now exists active].
    destruct (String.eqb nk ""); [left; now exists active|].
    destruct (find _ _) as [r|] eqn:Hfind; [|left; now exists active].
    right. exists active, r. apply find_some in Hfind. tauto.
Qed.

(** X4.  A resolution never raises and changes nothing but connection
    states and the binding of the active machine: table, registry, timer
    and running flag stay as they are, no device changes key or host name,
    no device is disconnected, only devices of the table are touched, and
    at most one [connect] is called. *)
Theorem resolution_only_connects_and_binds (w : World) :
  exists w' evs,
    _connectToActiveMachine matchesNetworkKey w = Ok w' /\
    _remote_clusters w' = _remote_clusters w /\
    output_devices w' = output_devices w /\
    _update_timer w' = _update_timer w /\
    _running w' = _running w /\
    (forall r,
       CloudOutputDevice.key (heap w' r) = CloudOutputDevice.key (heap w r)
       /\ CloudOutputDevice.host_name (heap w' r)
          = CloudOutputDevice.host_name (heap w r)
       /\ (CloudOutputDevice.connected (heap w r) = true ->
           CloudOutputDevice.connected (heap w' r) = true)
       /\ (CloudOutputDevice.connected (heap w' r)
           <> CloudOutputDevice.connected (heap w r) ->
           In r (Dict.values (_remote_clusters w)))) /\
    trace w' = trace w ++ evs /\
    forallb is_resolver_event evs = true /\
    length (filter is_connect_event evs) <= 1.
Proof.
  assert (Hnoop : _connectToActiveMachine matchesNetworkKey w = Ok w ->
            exists w' evs,
              _connectToActiveMachine matchesNetworkKey w = Ok w' /\
              _remote_clusters w' = _remote_clusters w /\
              output_devices w' = output_devices w /\
              _update_timer w' = _update_timer w /\
              _running w' = _running w /\
              (forall r,
                 CloudOutputDevice.key (heap w' r)
                 = CloudOutputDevice.key (heap w r)
                 /\ CloudOutputDevice.host_name (heap w' r)
                    = CloudOutputDevice.host_name (heap w r)
                 /\ (CloudOutputDevice.connected (heap w r) = true ->
                     CloudOutputDevice.connected (heap w' r) = true)
                 /\ (CloudOutputDevice.connected (heap w' r)
                     <> CloudOutputDevice.connected (heap w r) ->
                     In r (Dict.values (_remote_clusters w)))) /\
              trace w' = trace w ++ evs /\
              forallb is_resolver_event evs = true /\
              length (filter is_connect_event evs) <= 1).
  { intros Hrun. exists w, []. rewrite app_nil_r.
    repeat split; auto. congruence. }
  destruct (resolver_outcome w) as
    [[_ Hrun] | [(active & k & r & _ & _ & Hget & Hrun)
                | [(active & _ & _ & Hrun)
                  | (active & r & _ & _ & Hin & Hrun)]]];
    try (now apply Hnoop).
  - destruct (CloudOutputDevice.isConnected (heap w r)) eqn:Hc;
      [now apply Hnoop|].
    exists (device_connect r w), [DeviceConnect r].
    split; [exact Hrun|]. simpl. repeat split; auto;
      destruct (Nat.eqb r0 r) eqn:E; try reflexivity; try tauto;
      apply Nat.eqb_eq in E; subst; try reflexivity.
    intros _. apply get_In in Hget. now apply In_values with k.
  - exists (device_connect r
              (setMetaDataEntry META_CLUSTER_ID
                 (CloudOutputDevice.key (heap w r)) w)),
           [SetMetaDataEntry META_CLUSTER_ID
              (CloudOutputDevice.key (heap w r)); DeviceConnect r].
    split; [exact Hrun|]. simpl. rewrite <- app_assoc.
    repeat split; auto;
      destruct (Nat.eqb r0 r) eqn:E; try reflexivity; try tauto;
      apply Nat.eqb_eq in E; subst; try reflexivity; auto.
Qed.

Lemma table_entry_of_value (w : World) (r : ref) :
  well_formed w -> keys_agree w ->
  In r (Dict.values (_remote_clusters w)) ->
  Dict.get (CloudOutputDevice.key (heap w r)) (_remote_clusters w) = Some r.
Proof.
  intros [Hnd _] Hka Hin. apply values_In in Hin. destruct Hin as [k Hin].
  rewrite (Hka _ _ Hin). now apply In_get.
Qed.

(** After a resolution the device the active machine is bound to, if the
    table has it, is connected; and resolving again changes nothing. *)
Lemma resolver_settles (w : World) :
  well_formed w -> keys_agree w ->
  exists w',
    _connectToActiveMachine matchesNetworkKey w = Ok w' /\
    _connectToActiveMachine matchesNetworkKey w' = Ok w' /\
    forall active k r,
      active_machine w' = Some active ->
      GlobalStack.getMetaDataEntry META_CLUSTER_ID active = Some k ->
      In (k, r) (_remote_clusters w') ->
      CloudOutputDevice.connected (heap w' r) = true.
Proof.
  intros Hwf Hka.
  destruct (resolver_outcome w) as
    [[Ham Hrun] | [(active & k & r & Ham & Hstored & Hget & Hrun)
                  | [(active & Ham & Habsent & Hrun)
                    | (active & r & Ham & Habsent & Hin & Hrun)]]].
  - exists w. repeat split; try assumption. congruence.
  - destruct (CloudOutputDevice.isConnected (heap w r)) eqn:Hc.
    + exists w. repeat split; try assumption.
      intros active' k' r' Ham' Hstored' Hin'.
      assert (active' = active) by congruence. subst active'.
      assert (k' = k) by congruence. subst k'.
      apply get_In in Hget.
      now rewrite (unique_entry k r' r _ (proj1 Hwf) Hin' Hget).
    + exists (device_connect r w). split; [exact Hrun|]. split.
      * rewrite (resolver_bound matchesNetworkKey (device_connect r w)
                   active k r); try assumption.
        simpl. now rewrite Nat.eqb_refl.
      * simpl. intros active' k' r' Ham' Hstored' Hin'.
        assert (active' = active) by congruence. subst active'.
        assert (k' = k) by congruence. subst k'.
        apply get_In in Hget.
        rewrite (unique_entry k r' r _ (proj1 Hwf) Hin' Hget).
        now rewrite Nat.eqb_refl.
  - exists w. repeat split; try assumption.
    intros active' k' r' Ham' Hstored' Hin'.
    assert (active' = active) by congruence. subst active'.
    exfalso. apply (Habsent k' Hstored'). now apply In_keys with r'.
  - pose proof (table_entry_of_value w r Hwf Hka Hin) as Hget.
    set (kr := CloudOutputDevice.key (heap w r)) in *.
    exists (device_connect r (setMetaDataEntry META_CLUSTER_ID kr w)).
    assert (Ham' : active_machine
                     (device_connect r (setMetaDataEntry META_CLUSTER_ID kr w))
                   = Some (GlobalStack.setMetaDataEntry META_CLUSTER_ID kr
                             active)).
    { simpl. now rewrite Ham. }
    split; [exact Hrun|]. split.
    + rewrite (resolver_bound matchesNetworkKey _ _ kr r Ham'
                 (stored_identity_after_binding kr active)); [|exact Hget].
      simpl. now rewrite Nat.eqb_refl.
    + intros active' k' r' Ham'' Hstored' Hin'.
      rewrite Ham' in Ham''. injection Ham'' as <-.
      rewrite stored_identity_after_binding in Hstored'.
      injection Hstored' as <-. apply get_In in Hget.
      simpl in Hin'.
      rewrite (unique_entry kr r' r _ (proj1 Hwf) Hin' Hget).
      simpl. now rewrite Nat.eqb_refl.
Qed.

(** X5.  After a resolution, the device that the stored cluster identity
    of the active machine names in the table is connected. *)
Theorem bound_device_is_connected (w : World) :
  well_formed w ->
  keys_agree w ->
  exists w',
    _connectToActiveMachine matchesNetworkKey w = Ok w' /\
    forall active k r,
      active_machine w' = Some active ->
      GlobalStack.getMetaDataEntry META_CLUSTER_ID active = Some k ->
      In (k, r) (_remote_clusters w') ->
      CloudOutputDevice.isConnected (heap w' r) = true.
Proof.
  intros Hwf Hka.
  destruct (resolver_settles w Hwf Hka) as (w' & Hrun & _ & Hconn).
  exists w'. split; [exact Hrun | exact Hconn].
Qed.

(** X6.  Resolving twice in a row is resolving once: the second
    resolution finds the machine bound to a connected device and calls
    nothing. *)
Theorem resolution_is_idempotent (w : World) :
  well_formed w ->
  keys_agree w ->
  exists w',
    _connectToActiveMachine matchesNetworkKey w = Ok w' /\
    (_connectToActiveMachine matchesNetworkKey ;;
     _connectToActiveMachine matchesNetworkKey) w = Ok w'.
Proof.
  intros Hwf Hka.
  destruct (resolver_settles w Hwf Hka) as (w' & Hrun & Hagain & _).
  exists w'. split; [exact Hrun|]. unfold and_then. now rewrite Hrun.
Qed.

(** ** More on a reconciliation *)

Lemma resolver_keeps_connections (w w' : World) (r : ref) :
  _connectToActiveMachine matchesNetworkKey w = Ok w' ->
  CloudOutputDevice.connected (heap w r) = true ->
  CloudOutputDevice.connected (heap w' r) = true.
Proof.
  intros Hrun Hc.
  destruct (resolver_outcome w) as
    [[_ Hrun'] | [(active & k & r0 & _ & _ & _ & Hrun')
                 | [(active & _ & _ & Hrun')
                   | (active & r0 & _ & _ & _ & Hrun')]]];
    rewrite Hrun in Hrun'; injection Hrun' as ->; try assumption.
  - destruct (CloudOutputDevice.isConnected (heap w r0)); [assumption|].
    simpl. now destruct (Nat.eqb r r0).
  - simpl. now destruct (Nat.eqb r r0).
Qed.

Lemma values_unique (w : World) :
  well_formed w -> keys_agree w -> NoDup (Dict.values (_remote_clusters w)).
Proof.
  intros [Hnd _] Hka.
  apply (NoDup_map_inv (fun r => CloudOutputDevice.key (heap w r))).
  rewrite keys_of_values by exact Hka. exact Hnd.
Qed.

Lemma In_findChanges_updated_iff h previous current r c :
  In (r, c) (snd (findChanges h previous current)) <->
  exists k, In (k, r) previous /\ Dict.get k current = Some c
            /\ String.eqb (CloudOutputDevice.host_name (h r))
                          (CloudClusterResponse.host_name c) = false.
Proof.
  unfold findChanges. simpl. rewrite in_flat_map. split.
  - intros [[k r'] [Hin Hm]]. simpl in Hm.
    destruct (Dict.get k current) as [c'|] eqn:E; [|contradiction].
    destruct (String.eqb _ _) eqn:Eh; [contradiction|].
    destruct Hm as [Heq | []]. injection Heq as <- <-. now exists k.
  - intros (k & Hin & Hget & Hne). exists (k, r). split; [exact Hin|].
    simpl. rewrite Hget, Hne. now left.
Qed.

Lemma updated_refs_unique h (previous : Dict.t ref) current :
  NoDup (Dict.values previous) ->
  NoDup (map fst (snd (findChanges h previous current))).
Proof.
  unfold findChanges. simpl.
  induction previous as [|[k r] d IH]; simpl; intros Hnd; [constructor|].
  inversion Hnd as [|? ? Hr Hd]; subst. rewrite map_app.
  apply NoDup_app; [| now apply IH |].
  - destruct (Dict.get k current) as [c|]; [|constructor].
    destruct (String.eqb _ _); simpl; repeat constructor; auto.
  - intros x Hx Hx'. apply Hr.
    assert (x = r).
    { destruct (Dict.get k current) as [c|]; [|contradiction].
      destruct (String.eqb _ _); [contradiction|].
      destruct Hx as [<- | []]. reflexivity. }
    subst x. apply in_map_iff in Hx'. destruct Hx' as [[r' c'] [Hfst Hin]].
    simpl in Hfst. subst r'. apply in_flat_map in Hin.
    destruct Hin as [[k' r'] [Hin Hm]]. simpl in Hm.
    destruct (Dict.get k' current) as [c''|]; [|contradiction].
    destruct (String.eqb _ _); [contradiction|].
    destruct Hm as [Heq | []]. injection Heq as -> _.
    now apply In_values with k'.
Qed.

(** What a poll does to the devices: those whose key stays online keep
    their place, their identity and their connection; every device of the
    new table carries the host name of its online record; the other
    entries of the new table are new objects under new keys. *)
Lemma reconcile_devices (cs : list CloudClusterResponse.t) (w : World) :
  well_formed w -> keys_agree w ->
  exists w',
    _onGetRemoteClustersFinished matchesNetworkKey cs w = Ok w' /\
    _remote_clusters w'
    = filter (fun e => Dict.contains (fst e) (online_clusters cs))
             (_remote_clusters w)
      ++ added_entries (next_ref w)
           (snd (fst (findChanges (heap w) (_remote_clusters w)
                        (online_clusters cs)))) /\
    (forall k r,
       In (k, r) (_remote_clusters w) ->
       Dict.contains k (online_clusters cs) = true ->
       CloudOutputDevice.connected (heap w r) = true ->
       CloudOutputDevice.connected (heap w' r) = true) /\
    (forall k r,
       In (k, r) (_remote_clusters w') ->
       exists c,
         Dict.get k (online_clusters cs) = Some c /\
         CloudOutputDevice.host_name (heap w' r)
         = CloudClusterResponse.host_name c) /\
    (forall k r,
       In (k, r) (added_entries (next_ref w)
                    (snd (fst (findChanges (heap w) (_remote_clusters w)
                                 (online_clusters cs))))) ->
       next_ref w <= r /\ ~ In k (Dict.keys (_remote_clusters w))).
Proof.
  intros Hwf Hka. pose proof Hwf as [Hnd Halloc].
  set (online := online_clusters cs).
  set (changes := findChanges (heap w) (_remote_clusters w) online).
  set (removed := fst (fst changes)).
  set (added := snd (fst changes)).
  set (updates := snd changes).
  destruct (online_clusters_spec cs) as (Hond & Honid & _).
  fold online in Hond, Honid.
  assert (Hrem : forall r, In r removed ->
            exists k, In (k, r) (_remote_clusters w)
                      /\ Dict.contains k online = false).
  { intros r Hr. unfold removed, changes in Hr.
    rewrite findChanges_removed in Hr. apply values_In in Hr.
    destruct Hr as [k Hk]. apply filter_In in Hk. simpl in Hk.
    exists k. now rewrite <- negb_true_iff. }
  assert (Hremkeys :
            map (fun r => CloudOutputDevice.key (heap w r)) removed
            = Dict.keys (filter (fun e => negb (Dict.contains (fst e) online))
                                (_remote_clusters w))).
  { unfold removed, changes. rewrite findChanges_removed.
    apply keys_of_values. intros k r Hin. apply filter_In in Hin.
    now apply Hka. }
  destruct (remove_loop_spec removed w) as
    (w1 & Hrun1 & Hheap1 & Hnext1 & Htab1 & _ & _ & _ & _).
  { rewrite Hremkeys. now apply NoDup_map_filter. }
  { intros r Hr. destruct (Hrem r Hr) as (k & Hin & _).
    rewrite (Hka _ _ Hin). now apply In_keys with r. }
  assert (Htab1' : _remote_clusters w1
                   = filter (fun e => Dict.contains (fst e) online)
                            (_remote_clusters w)).
  { rewrite Htab1, Hremkeys. apply filter_ext_in. intros [k r] Hin. simpl.
    destruct (Dict.contains k online) eqn:E.
    - apply negb_true_iff, existsb_eqb_not_In. intros Hk.
      apply keys_In in Hk. destruct Hk as [r' Hk]. apply filter_In in Hk.
      simpl in Hk. rewrite E in Hk. now destruct Hk.
    - apply negb_false_iff, existsb_eqb_In. apply In_keys with r.
      apply filter_In. simpl. now rewrite E. }
  assert (Hadd : forall c, In c added ->
            In (CloudClusterResponse.cluster_id c, c) online
            /\ ~ In (CloudClusterResponse.cluster_id c)
                    (Dict.keys (_remote_clusters w))).
  { intros c Hc. unfold added, changes in Hc.
    rewrite findChanges_added in Hc. apply values_In in Hc.
    destruct Hc as [k Hk]. apply filter_In in Hk. simpl in Hk.
    destruct Hk as [Hin Hk]. destruct (Honid _ _ Hin) as (<- & _).
    split; [exact Hin|]. now apply contains_not_In, negb_true_iff. }
  destruct (add_loop_spec added w1) as
    (w2 & Hrun2 & Hold2 & Hnew2 & _ & Htab2 & _ & _ & _ & _).
  { unfold added, changes. rewrite findChanges_added.
    rewrite ids_of_values.
    - now apply NoDup_map_filter.
    - intros k c Hin. apply filter_In in Hin. now apply Honid. }
  { intros c Hc Hin. apply (proj2 (Hadd c Hc)). apply keys_In in Hin.
    destruct Hin as [r Hin]. apply In_keys with r. rewrite Htab1' in Hin.
    now apply filter_In in Hin. }
  destruct (update_loop_spec updates w2) as
    (w3 & Hrun3 & _ & Hconn3 & Hout3 & Hin3 & _ & Htab3 & _ & _ & _ & _).
  destruct (connectToActiveMachine_frame matchesNetworkKey w3)
    as (w' & Hrun4 & Hframe).
  destruct Hframe as (Htab' & _ & _ & _ & _ & Hhost' & _).
  assert (Hupd : NoDup (map fst updates)).
  { apply updated_refs_unique. now apply values_unique. }
  assert (Hupdref : forall r, In r (map fst updates) ->
            In r (Dict.values (_remote_clusters w))).
  { intros r Hr. apply in_map_iff in Hr. destruct Hr as [[r' c] [Hfst Hin]].
    simpl in Hfst. subst r'. apply In_findChanges_updated_iff in Hin.
    destruct Hin as (k & Hin & _). now apply In_values with k. }
  assert (Hkeep : forall k r,
            In (k, r) (_remote_clusters w) ->
            Dict.contains k online = true ->
            heap w2 r = heap w r).
  { intros k r Hin Hon. rewrite Hold2
      by (rewrite Hnext1; now apply Halloc in Hin).
    rewrite Hheap1. destruct (existsb (Nat.eqb r) removed) eqn:E;
      [|reflexivity].
    apply existsb_nat_In in E. destruct (Hrem r E) as (k' & Hin' & Hoff).
    rewrite <- (Hka _ _ Hin), (Hka _ _ Hin') in Hon. congruence. }
  exists w'. split.
  { change (_onGetRemoteClustersFinished matchesNetworkKey cs w)
      with ((for_each removed remove_output_device ;;
             for_each added add_output_device ;;
             for_each updates update_output_device ;;
             _connectToActiveMachine matchesNetworkKey) w).
    unfold and_then. now rewrite Hrun1, Hrun2, Hrun3. }
  split; [now rewrite Htab', Htab3, Htab2, Htab1', Hnext1|]. split; [|split].
  - intros k r Hin Hon Hc.
    apply (resolver_keeps_connections w3 w' r Hrun4).
    now rewrite Hconn3, (Hkeep k r Hin Hon).
  - intros k r. rewrite Htab', Htab3, Htab2, Htab1', in_app_iff, Hhost'.
    intros [Hin | Hin].
    + apply filter_In in Hin. simpl in Hin. destruct Hin as [Hin Hon].
      destruct (contains_get _ _ Hon) as [c Hget]. exists c.
      split; [exact Hget|].
      destruct (String.eqb (CloudOutputDevice.host_name (heap w r))
                           (CloudClusterResponse.host_name c)) eqn:Eh.
      * apply String.eqb_eq in Eh. rewrite Hout3, (Hkeep k r Hin Hon);
          [exact Eh|].
        intros Hr. apply in_map_iff in Hr.
        destruct Hr as [[r' c'] [Hfst Hu]]. simpl in Hfst. subst r'.
        apply In_findChanges_updated_iff in Hu.
        destruct Hu as (k' & Hin' & Hget' & Hne).
        rewrite <- (Hka _ _ Hin'), (Hka _ _ Hin), Hget in Hget'.
        injection Hget' as <-.
        apply String.eqb_neq in Hne. contradiction.
      * apply (Hin3 Hupd). apply In_findChanges_updated_iff.
        exists k. auto.
    + rewrite Hnext1 in Hin. apply In_added_entries in Hin.
      destruct Hin as (i & c & Hi & -> & ->). exists c.
      assert (Hc : In c added) by (now apply nth_error_In with i).
      split; [apply In_get; [exact Hond | apply (Hadd c Hc)]|].
      rewrite Hout3.
      * rewrite <- Hnext1, (Hnew2 _ _ Hi). reflexivity.
      * intros Hr. apply Hupdref, values_In in Hr.
        destruct Hr as [k Hin]. apply Halloc in Hin. lia.
  - intros k r Hin. apply In_added_entries in Hin.
    destruct Hin as (i & c & Hi & -> & ->). split; [lia|].
    apply Hadd. now apply nth_error_In with i.
Qed.

(** X7.  A poll never recreates or disconnects a device whose cluster
    stays online: the surviving entries keep their device object, their
    relative order and their connection; the entries the poll adds come
    after them, each a newly constructed object under a key the table did
    not have. *)
Theorem poll_keeps_online_devices
    (cs : list CloudClusterResponse.t) (w : World) :
  well_formed w ->
  keys_agree w ->
  exists w' new_entries,
    _onGetRemoteClustersFinished matchesNetworkKey cs w = Ok w' /\
    _remote_clusters w'
    = filter (fun e => Dict.contains (fst e) (online_clusters cs))
             (_remote_clusters w)
      ++ new_entries /\
    (forall k r,
       In (k, r) (_remote_clusters w) ->
       In k (Dict.keys (online_clusters cs)) ->
       In (k, r) (_remote_clusters w') /\
       (CloudOutputDevice.isConnected (heap w r) = true ->
        CloudOutputDevice.isConnected (heap w' r) = true)) /\
    (forall k r,
       In (k, r) new_entries ->
       next_ref w <= r /\ ~ In k (Dict.keys (_remote_clusters w))).
Proof.
  intros Hwf Hka.
  destruct (reconcile_devices cs w Hwf Hka)
    as (w' & Hrun & Htab & Hconn & _ & Hnew).
  exists w'. eexists. split; [exact Hrun|]. split; [exact Htab|].
  split; [|exact Hnew].
  intros k r Hin Hon. apply contains_In in Hon. split.
  - rewrite Htab. apply in_or_app. left. apply filter_In. now split.
  - now apply Hconn with k.
Qed.

(** X8.  After a poll every device of the table carries the host name of
    the last online record that the response gives for its key. *)
Theorem poll_sets_host_names
    (cs : list CloudClusterResponse.t) (w : World) :
  well_formed w ->
  keys_agree w ->
  exists w',
    _onGetRemoteClustersFinished matchesNetworkKey cs w = Ok w' /\
    forall k r,
      In (k, r) (_remote_clusters w') ->
      exists c,
        last_online k cs = Some c /\
        CloudOutputDevice.host_name (heap w' r)
        = CloudClusterResponse.host_name c.
Proof.
  intros Hwf Hka.
  destruct (reconcile_devices cs w Hwf Hka)
    as (w' & Hrun & _ & _ & Hhost & _).
  exists w'. split; [exact Hrun|]. intros k r Hin.
  destruct (Hhost k r Hin) as (c & Hget & Hh). exists c.
  now rewrite <- get_online_clusters.
Qed.

Lemma flat_map_nothing {A B} (f : A -> list B) (l : list A) :
  (forall x, In x l -> f x = []) -> flat_map f l = [].
Proof.
  induction l as [|x l IH]; simpl; intros H; [reflexivity|].
  rewrite H by now left. apply IH. intros y Hy. apply H. now right.
Qed.

(** X9.  A poll that repeats the response of the poll before it changes
    nothing at all: no device is created, torn down or renamed, and the
    resolver finds the machine already settled. *)
Theorem repeated_response_changes_nothing
    (cs : list CloudClusterResponse.t) (w : World) :
  well_formed w ->
  keys_agree w ->
  exists w',
    _onGetRemoteClustersFinished matchesNetworkKey cs w = Ok w' /\
    findChanges (heap w') (_remote_clusters w') (online_clusters cs)
    = ([], [], []) /\
    _onGetRemoteClustersFinished matchesNetworkKey cs w' = Ok w'.
Proof.
  intros Hwf Hka.
  destruct (reconcile_devices cs w Hwf Hka)
    as (w' & Hrun & _ & _ & Hhost & _).
  destruct (reconcile_keys matchesNetworkKey cs w Hwf Hka)
    as (w2 & Hrun2 & _ & _ & Hkeys).
  rewrite Hrun in Hrun2. injection Hrun2 as <-.
  destruct (reconcile_spec matchesNetworkKey cs w Hwf Hka) as
    (w3 & w4 & Hrun4 & Hres & _ & _ & _ & _ & _ & _ & _ & _ & _ & Hwf3
        & Hka3 & _).
  rewrite Hrun in Hrun4. injection Hrun4 as <-.
  destruct (resolver_settles w3 Hwf3 Hka3) as (w5 & Hres5 & Hagain & _).
  rewrite Hres in Hres5. injection Hres5 as <-.
  assert (Hfc : findChanges (heap w') (_remote_clusters w')
                  (online_clusters cs) = ([], [], [])).
  { unfold findChanges. f_equal; [f_equal|].
    - rewrite filter_none; [reflexivity|]. intros [k r] Hin. simpl.
      apply negb_false_iff, contains_In, Hkeys. now apply In_keys with r.
    - rewrite filter_none; [reflexivity|]. intros [k c] Hin. simpl.
      apply negb_false_iff, contains_In, Hkeys. now apply In_keys with c.
    - apply flat_map_nothing. intros [k r] Hin. simpl.
      destruct (Hhost k r Hin) as (c & Hget & Hh).
      rewrite Hget, Hh. now rewrite String.eqb_refl. }
  exists w'. split; [exact Hrun|]. split; [exact Hfc|].
  unfold _onGetRemoteClustersFinished. rewrite Hfc. exact Hagain.
Qed.


End Resolution.

(** ** Every world the manager can be in *)

Section Runs.

Variable matchesNetworkKey : CloudOutputDevice.t -> string -> bool.

Lemma login_effect (b : bool) (w : World) :
  well_formed w -> keys_agree w ->
  exists w' evs,
    _onLoginStateChanged matchesNetworkKey b w = Ok w' /\
    QTimer.interval (_update_timer w') = QTimer.interval (_update_timer w) /\
    QTimer.singleShot (_update_timer w')
    = QTimer.singleShot (_update_timer w) /\
    trace w' = trace w ++ evs.
Proof.
  intros Hwf Hka. destruct b.
  - unfold _onLoginStateChanged, and_then, pure, _getRemoteClusters.
    destruct (QTimer.isActive (_update_timer w)); simpl.
    + eexists. exists [ApiGetClusters]. repeat split.
    + eexists. exists [TimerStart; ApiGetClusters].
      split; [reflexivity|]. simpl. rewrite <- app_assoc. repeat split.
  - destruct (logout_spec matchesNetworkKey w Hwf Hka) as
      (w0 & w' & Hrun & _ & _ & _ & Htr0 & _ & _ & _ & _ & Htr & Hint
          & Hshot).
    exists w'. eexists. split; [exact Hrun|]. split; [exact Hint|].
    split; [exact Hshot|]. rewrite Htr, Htr0, <- app_assoc. reflexivity.
Qed.

Lemma start_connects_again (w : World) :
  well_formed w -> keys_agree w ->
  _running w = false ->
  exists w' evs,
    start matchesNetworkKey w = Ok w' /\
    QTimer.interval (_update_timer w') = QTimer.interval (_update_timer w) /\
    QTimer.singleShot (_update_timer w')
    = QTimer.singleShot (_update_timer w) /\
    trace w'
    = trace w
      ++ [SignalConnect loginStateChanged on_onLoginStateChanged;
          SignalConnect globalContainerStackChanged on_connectToActiveMachine;
          SignalConnect timeout on_getRemoteClusters]
      ++ evs.
Proof.
  intros Hwf Hka Hflag. unfold start. rewrite Hflag.
  unfold and_then, pure. cbv beta.
  match goal with
  | |- exists w' evs, _onLoginStateChanged _ ?b ?w0 = Ok w' /\ _ =>
      destruct (login_effect b w0) as (w' & evs & Hrun & Hint & Hshot & Htr);
      [exact Hwf | exact Hka |]
  end.
  exists w', evs. split; [exact Hrun|]. split; [exact Hint|].
  split; [exact Hshot|]. rewrite Htr. simpl. rewrite <- !app_assoc.
  reflexivity.
Qed.

Section Actions.

Variable i18nc : string -> string -> string.

Lemma run_keeps_timer_settings (c : Call) (w : World) :
  well_formed w -> keys_agree w ->
  forall w',
    run matchesNetworkKey i18nc c w = Ok w' ->
    QTimer.interval (_update_timer w') = QTimer.interval (_update_timer w) /\
    QTimer.singleShot (_update_timer w')
    = QTimer.singleShot (_update_timer w).
Proof.
  intros Hwf Hka w' Hrun. destruct c as [| |b| |cs| |errors]; simpl in Hrun.
  - destruct (_running w) eqn:Hflag.
    + rewrite (start_with_flag matchesNetworkKey w Hflag) in Hrun.
      injection Hrun as <-. auto.
    + destruct (start_connects_again w Hwf Hka Hflag)
        as (w1 & evs & Hrun1 & Hint & Hshot & _).
      rewrite Hrun in Hrun1. injection Hrun1 as <-. auto.
  - unfold stop in Hrun. destruct (_running w); cbn [negb] in Hrun;
      [|injection Hrun as <-; auto].
    unfold and_then, pure in Hrun. cbv beta in Hrun.
    match type of Hrun with
    | _onLoginStateChanged _ _ ?w0 = _ =>
        destruct (login_effect false w0)
          as (w1 & evs & Hrun1 & Hint & Hshot & _);
        [exact Hwf | exact Hka |]
    end.
    rewrite Hrun in Hrun1. injection Hrun1 as <-. auto.
  - destruct (login_effect b w Hwf Hka)
      as (w1 & evs & Hrun1 & Hint & Hshot & _).
    rewrite Hrun in Hrun1. injection Hrun1 as <-. auto.
  - injection Hrun as <-. auto.
  - destruct (reconcile_spec matchesNetworkKey cs w Hwf Hka) as
      (w3 & w1 & Hrun1 & _ & Hframe & _ & _ & _ & _ & _ & Hsame & _).
    rewrite Hrun in Hrun1. injection Hrun1 as <-.
    destruct Hframe as (_ & _ & _ & (Ht' & _) & _), Hsame as (Ht & _).
    rewrite Ht', Ht. auto.
  - destruct (connectToActiveMachine_frame matchesNetworkKey w)
      as (w1 & Hrun1 & Hframe).
    rewrite Hrun in Hrun1. injection Hrun1 as <-.
    destruct Hframe as (_ & _ & _ & (Ht' & _) & _). rewrite Ht'. auto.
  - injection Hrun as <-. auto.
Qed.

Lemma init_invariant (logged_in : bool) (machine : option GlobalStack.t) :
  manager_invariant (__init__ logged_in machine).
Proof.
  destruct (init_well_formed i18nc logged_in machine) as [Hwf Hsync].
  unfold manager_invariant. simpl. repeat split; try apply Hwf;
    try apply Hsync. constructor.
Qed.

Lemma run_action_invariant (a : Action) (w : World) :
  manager_invariant w ->
  exists w',
    run_action matchesNetworkKey i18nc a w = Ok w' /\ manager_invariant w'.
Proof.
  intros (Hwf & Hsync & Hrefs & Hflag & Hint & Hshot).
  destruct a as [c|b|m]; simpl.
  - destruct (run_preserves matchesNetworkKey i18nc c w Hwf Hsync)
      as (w' & Hrun & Hwf' & Hsync' & Hflag').
    destruct (run_keeps_timer_settings c w Hwf (proj2 Hsync) w' Hrun)
      as [Hint' Hshot'].
    exists w'. split; [exact Hrun|]. unfold manager_invariant.
    repeat split; try apply Hwf'; try apply Hsync'; try congruence.
    apply values_unique; [exact Hwf' | apply Hsync'].
  - eexists. split; [reflexivity|]. unfold manager_invariant. simpl.
    repeat split; try apply Hwf; try apply Hsync; assumption.
  - eexists. split; [reflexivity|]. unfold manager_invariant. simpl.
    repeat split; try apply Hwf; try apply Hsync; assumption.
Qed.

Lemma run_actions_invariant (l : list Action) :
  forall w,
    manager_invariant w ->
    exists w',
      run_actions matchesNetworkKey i18nc l w = Ok w'
      /\ manager_invariant w'.
Proof.
  induction l as [|a l IH]; intros w Hinv; simpl.
  - now exists w.
  - destruct (run_action_invariant a w Hinv) as (w1 & Hrun & Hinv1).
    unfold and_then. rewrite Hrun. now apply IH.
Qed.

(** X1.  Whatever is called on a manager after its construction, in
    whatever order and between whatever logins, logouts and changes of the
    active machine, no call raises, and afterwards the table has one entry
    per key, each entry maps its key to a device with that key, no device
    object sits under two keys, and the registry holds exactly the keys of
    the table. *)
Theorem no_run_raises (l : list Action) (logged_in : bool)
    (machine : option GlobalStack.t) :
  exists w,
    run_actions matchesNetworkKey i18nc l (__init__ logged_in machine) = Ok w
    /\ NoDup (Dict.keys (_remote_clusters w))
    /\ NoDup (Dict.values (_remote_clusters w))
    /\ (forall k r, In (k, r) (_remote_clusters w) ->
                    CloudOutputDevice.key (heap w r) = k /\ r < next_ref w)
    /\ (forall k, In k (Dict.keys (_remote_clusters w))
                  <-> In k (output_devices w)).
Proof.
  destruct (run_actions_invariant l _ (init_invariant logged_in machine))
    as (w & Hrun & (Hnd & Halloc) & (Hra & Hka) & Hrefs & _).
  exists w. split; [exact Hrun|]. split; [exact Hnd|].
  split; [exact Hrefs|]. split; [|exact Hra].
  intros k r Hin. split; [now apply Hka | now apply Halloc in Hin].
Qed.

(** X2.  No call assigns the running flag.  After any run of a manager
    the flag is still [False], so [stop] returns at its guard leaving the
    world as it is, and [start] connects its three signals once more. *)
Theorem running_flag_stays_clear (l : list Action) (logged_in : bool)
    (machine : option GlobalStack.t) :
  exists w w' evs,
    run_actions matchesNetworkKey i18nc l (__init__ logged_in machine) = Ok w
    /\ _running w = false
    /\ stop matchesNetworkKey w = Ok w
    /\ start matchesNetworkKey w = Ok w'
    /\ trace w'
       = trace w
         ++ [SignalConnect loginStateChanged on_onLoginStateChanged;
             SignalConnect globalContainerStackChanged
                           on_connectToActiveMachine;
             SignalConnect timeout on_getRemoteClusters]
         ++ evs.
Proof.
  destruct (run_actions_invariant l _ (init_invariant logged_in machine))
    as (w & Hrun & Hwf & (_ & Hka) & _ & Hflag & _).
  destruct (start_connects_again w Hwf Hka Hflag)
    as (w' & evs & Hstart & _ & _ & Htr).
  exists w, w', evs. split; [exact Hrun|]. split; [exact Hflag|].
  split; [now apply stop_without_flag|]. split; [exact Hstart | exact Htr].
Qed.

(** X3.  The manager never reconfigures its timer: after any run it is
    still the 50-second repeating timer of the constructor. *)
Theorem timer_settings_never_change (l : list Action) (logged_in : bool)
    (machine : option GlobalStack.t) :
  exists w,
    run_actions matchesNetworkKey i18nc l (__init__ logged_in machine) = Ok w
    /\ QTimer.interval (_update_timer w) = (CHECK_CLUSTER_INTERVAL * 1000)%Z
    /\ QTimer.singleShot (_update_timer w) = false.
Proof.
  destruct (run_actions_invariant l _ (init_invariant logged_in machine))
    as (w & Hrun & _ & _ & _ & _ & Hint & Hshot).
  exists w. split; [exact Hrun|]. split; [exact Hint | exact Hshot].
Qed.

End Actions.

End Runs.

(** ** Polls, errors and the timer *)

Section Polls.

Variable matchesNetworkKey : CloudOutputDevice.t -> string -> bool.


(** X14.  After a successful poll the device that the stored cluster
    identity of the active machine names in the new table is connected. *)
Theorem poll_connects_bound_device
    (cs : list CloudClusterResponse.t) (w : World) :
  well_formed w ->
  keys_agree w ->
  exists w',
    _onGetRemoteClustersFinished matchesNetworkKey cs w = Ok w' /\
    forall active k r,
      active_machine w' = Some active ->
      GlobalStack.getMetaDataEntry META_CLUSTER_ID active = Some k ->
      In (k, r) (_remote_clusters w') ->
      CloudOutputDevice.isConnected (heap w' r) = true.
Proof.
  intros Hwf Hka.
  destruct (reconcile_spec matchesNetworkKey cs w Hwf Hka) as
    (w3 & w' & Hrun & Hres & _ & _ & _ & _ & _ & _ & _ & _ & _ & Hwf3
        & Hka3 & _).
  destruct (resolver_settles matchesNetworkKey w3 Hwf3 Hka3)
    as (w4 & Hres4 & _ & Hconn).
  rewrite Hres in Hres4. injection Hres4 as <-.
  exists w'. split; [exact Hrun | exact Hconn].
Qed.

Section Errors.

Variable i18nc : string -> string -> string.

(** X12.  Only a login-state evaluation arms or disarms the timer, and it
    leaves it armed exactly when the state is logged in.  A poll result, a
    resolution, an API error and a timer tick leave the timer as it is, so
    polling goes on after a failed poll. *)
Theorem timer_follows_login_state
    (w : World) (is_logged_in : bool) (cs : list CloudClusterResponse.t)
    (errors : list CloudErrorObject.t) :
  well_formed w ->
  keys_agree w ->
  (exists w',
     _onLoginStateChanged matchesNetworkKey is_logged_in w = Ok w'
     /\ QTimer.isActive (_update_timer w') = is_logged_in) /\
  (exists w',
     _onGetRemoteClustersFinished matchesNetworkKey cs w = Ok w'
     /\ _update_timer w' = _update_timer w) /\
  (exists w',
     _connectToActiveMachine matchesNetworkKey w = Ok w'
     /\ _update_timer w' = _update_timer w) /\
  (exists w',
     _onApiError i18nc errors w = Ok w'
     /\ _update_timer w' = _update_timer w) /\
  (exists w',
     _getRemoteClusters w = Ok w'
     /\ _update_timer w' = _update_timer w
     /\ trace w' = trace w ++ [ApiGetClusters]).
Proof.
  intros Hwf Hka. split; [|split; [|split; [|split]]].
  - destruct is_logged_in.
    + unfold _onLoginStateChanged, and_then, pure, _getRemoteClusters.
      eexists. split; [reflexivity|].
      now destruct (QTimer.isActive (_update_timer w)) eqn:E.
    + destruct (logout_spec matchesNetworkKey w Hwf Hka) as
        (w0 & w' & Hrun & _ & _ & _ & _ & _ & _ & _ & Hoff & _).
      now exists w'.
  - destruct (reconcile_spec matchesNetworkKey cs w Hwf Hka) as
      (w3 & w' & Hrun & _ & Hframe & _ & _ & _ & _ & _ & Hsame & _).
    exists w'. split; [exact Hrun|].
    destruct Hframe as (_ & _ & _ & (Ht' & _) & _), Hsame as (Ht & _).
    congruence.
  - destruct (connectToActiveMachine_frame matchesNetworkKey w)
      as (w' & Hrun & Hframe).
    exists w'. split; [exact Hrun|]. apply Hframe.
  - eexists. split; reflexivity.
  - eexists. repeat split.
Qed.

End Errors.

End Polls.

(** ** What a resolution writes *)

Section Binding.

Variable matchesNetworkKey : CloudOutputDevice.t -> string -> bool.

(** X15.  The only metadata entry a resolution ever writes is the stored
    cluster identity: every other entry of the active machine, its local
    network key among them, reads the same afterwards, and the active
    machine itself is not replaced. *)
Theorem resolution_writes_cluster_id_only (w : World) :
  exists w',
    _connectToActiveMachine matchesNetworkKey w = Ok w' /\
    match active_machine w, active_machine w' with
    | None, None => True
    | Some active, Some active' =>
        forall k,
          k <> META_CLUSTER_ID ->
          GlobalStack.getMetaDataEntry k active'
          = GlobalStack.getMetaDataEntry k active
    | _, _ => False
    end.
Proof.
  destruct (resolver_outcome matchesNetworkKey w) as
    [[Ham Hrun] | [(active & k & r & Ham & _ & _ & Hrun)
                  | [(active & Ham & _ & Hrun)
                    | (active & r & Ham & _ & _ & Hrun)]]].
  - exists w. split; [exact Hrun|]. now rewrite Ham.
  - eexists. split; [exact Hrun|].
    destruct (CloudOutputDevice.isConnected (heap w r)); simpl;
      now rewrite Ham.
  - exists w. split; [exact Hrun|]. now rewrite Ham.
  - eexists. split; [exact Hrun|]. simpl. rewrite Ham. simpl.
    intros k Hk. unfold GlobalStack.getMetaDataEntry. simpl.
    now apply get_set_other.
Qed.

End Binding.

(** ** The further properties at work on the sample worlds *)

Lemma bound_device_is_connected_witness :
  exists w',
    _connectToActiveMachine host_name_prefix
      (set_active_machine (Some machine_h3) world_AB) = Ok w' /\
    forall active k r,
      active_machine w' = Some active ->
      GlobalStack.getMetaDataEntry META_CLUSTER_ID active = Some k ->
      In (k, r) (_remote_clusters w') ->
      CloudOutputDevice.isConnected (heap w' r) = true.
Proof.
  apply (bound_device_is_connected host_name_prefix
           (set_active_machine (Some machine_h3) world_AB)).
  - concrete_well_formed.
  - concrete_keys_agree.
Defined.

Lemma resolution_is_idempotent_witness :
  exists w',
    _connectToActiveMachine host_name_prefix
      (set_active_machine (Some machine_h3) world_AB) = Ok w' /\
    (_connectToActiveMachine host_name_prefix ;;
     _connectToActiveMachine host_name_prefix)
      (set_active_machine (Some machine_h3) world_AB) = Ok w'.
Proof.
  apply (resolution_is_idempotent host_name_prefix
           (set_active_machine (Some machine_h3) world_AB)).
  - concrete_well_formed.
  - concrete_keys_agree.
Defined.

Lemma poll_keeps_online_devices_witness :
  exists w',
    _onGetRemoteClustersFinished host_name_prefix
      [cluster_A_renamed; cluster_B_offline; cluster_C] world_AB = Ok w' /\
    In ("A", 0) (_remote_clusters w').
Proof.
  destruct (poll_keeps_online_devices host_name_prefix
              [cluster_A_renamed; cluster_B_offline; cluster_C] world_AB)
    as (w' & new_entries & Hrun & _ & Hkeep & _).
  - concrete_well_formed.
  - concrete_keys_agree.
  - exists w'. split; [exact Hrun|].
    apply (Hkeep "A" 0); vm_compute; auto.
Defined.

Lemma poll_sets_host_names_witness :
  exists w',
    _onGetRemoteClustersFinished host_name_prefix
      [cluster_A; cluster_A_renamed; cluster_B] world_AB = Ok w' /\
    forall k r,
      In (k, r) (_remote_clusters w') ->
      exists c,
        last_online k [cluster_A; cluster_A_renamed; cluster_B] = Some c /\
        CloudOutputDevice.host_name (heap w' r)
        = CloudClusterResponse.host_name c.
Proof.
  apply (poll_sets_host_names host_name_prefix
           [cluster_A; cluster_A_renamed; cluster_B] world_AB).
  - concrete_well_formed.
  - concrete_keys_agree.
Defined.

Lemma repeated_response_changes_nothing_witness :
  exists w',
    _onGetRemoteClustersFinished host_name_prefix
      [cluster_A_renamed; cluster_C] world_AB = Ok w' /\
    _onGetRemoteClustersFinished host_name_prefix
      [cluster_A_renamed; cluster_C] w' = Ok w'.
Proof.
  destruct (repeated_response_changes_nothing host_name_prefix
              [cluster_A_renamed; cluster_C] world_AB)
    as (w' & Hrun & _ & Hagain).
  - concrete_well_formed.
  - concrete_keys_agree.
  - exists w'. split; [exact Hrun | exact Hagain].
Defined.


Lemma timer_follows_login_state_witness :
  exists w',
    _onApiError untranslated [CloudErrorObject.mk "timeout"] world_AB = Ok w'
    /\ _update_timer w' = _update_timer world_AB.
Proof.
  destruct (timer_follows_login_state host_name_prefix untranslated
              world_AB true [cluster_A] [CloudErrorObject.mk "timeout"])
    as (_ & _ & _ & H & _).
  - concrete_well_formed.
  - concrete_keys_agree.
  - exact H.
Defined.


Lemma poll_connects_bound_device_witness :
  exists w',
    _onGetRemoteClustersFinished host_name_prefix
      [cluster_D; cluster_A; cluster_B] world_AB = Ok w' /\
    forall active k r,
      active_machine w' = Some active ->
      GlobalStack.getMetaDataEntry META_CLUSTER_ID active = Some k ->
      In (k, r) (_remote_clusters w') ->
      CloudOutputDevice.isConnected (heap w' r) = true.
Proof.
  apply (poll_connects_bound_device host_name_prefix
           [cluster_D; cluster_A; cluster_B] world_AB).
  - concrete_well_formed.
  - concrete_keys_agree.
Defined.
